(** * rep: request panel, scope classification and settings

    A shallow embedding of the request-handler module (keyboard shortcut
    dispatch and [handleSendRequest]) and of [js/modules/settings.js]
    ([reclassifyAllRequests], [loadSettings]), followed by the properties
    the specification states about them.

    JavaScript objects that are shared and mutated in place (the captured
    requests of [state.requests]) live in a store indexed by references;
    the DOM elements, the session state, the settings object and the
    console form one [World] that the handlers thread through a small
    state-and-exception monad. *)

From stdpp Require Import gmap strings list fin_maps pretty.

Open Scope string_scope.

(** ** JavaScript preliminaries *)

(** The line feed written [\n] in the template literals of the source. *)
Definition nl : string := String (Ascii.ascii_of_nat 10) "".

(** A thrown value, with the two properties the handlers read. *)
Record JsError := { message : string; stack : string }.

(** Truthiness of a nullable string: [null], [undefined] and the empty
    string are falsy. *)
Definition truthy (v : option string) : bool :=
  match v with
  | Some s => negb (s =? "")
  | None => false
  end.

(** ** Keyboard shortcuts (request handler module) *)

(** A chord as the settings store it. *)
Record Shortcut := {
  key : string;
  ctrl : bool;
  shift : bool;
  alt : bool;
  description : string
}.

(** The fields of a [keydown] event the dispatcher reads. *)
Record KeyboardEvent := {
  code : string;
  ctrlKey : bool;
  metaKey : bool;
  shiftKey : bool;
  altKey : bool
}.

(** [matchesShortcut(event, shortcut)]. *)
Definition matchesShortcut (event : KeyboardEvent) (shortcut : Shortcut) : bool :=
  let ctrlMatch :=
    if ctrl shortcut then ctrlKey event || metaKey event
    else negb (ctrlKey event || metaKey event) in
  let shiftMatch := if shift shortcut then shiftKey event else negb (shiftKey event) in
  let altMatch := if alt shortcut then altKey event else negb (altKey event) in
  let keyMatch := code event =? key shortcut in
  keyMatch && ctrlMatch && shiftMatch && altMatch.

(** The three functions registered in the [SHORTCUT_ACTIONS] literal. *)
Inductive Action := sendRequest | clearInput | toggleOOS.

(** What the property read [SHORTCUT_ACTIONS[actionId]] evaluates to.
    [SHORTCUT_ACTIONS] is an ordinary object literal, so a name it does
    not define itself is looked up on [Object.prototype]. *)
Inductive Property :=
| OwnAction (a : Action)
| InheritedFunction (name : string)
| InheritedObject
| Undefined.

(** The function-valued properties of [Object.prototype]. *)
Definition Object_prototype_functions : list string :=
  [ "constructor"; "hasOwnProperty"; "isPrototypeOf"; "propertyIsEnumerable";
    "toLocaleString"; "toString"; "valueOf";
    "__defineGetter__"; "__defineSetter__"; "__lookupGetter__"; "__lookupSetter__" ].

(** [SHORTCUT_ACTIONS[actionId]]: the three own properties first, then the
    prototype: the accessor [__proto__] yields [Object.prototype] itself,
    the other inherited names yield built-in functions. *)
Definition SHORTCUT_ACTIONS (actionId : string) : Property :=
  if actionId =? "sendRequest" then OwnAction sendRequest
  else if actionId =? "clearInput" then OwnAction clearInput
  else if actionId =? "toggleOOS" then OwnAction toggleOOS
  else if actionId =? "__proto__" then InheritedObject
  else if bool_decide (actionId ∈ Object_prototype_functions) then InheritedFunction actionId
  else Undefined.

(** What the [keydown] listener does, in order. *)
Inductive Effect :=
| PreventDefault
| RunAction (a : Action)
| CallBuiltin (name : string)
| ThrowTypeError.

(** [if (action) { action(e); }]: [undefined] is skipped, a function is
    called, and calling a truthy value that is not a function throws. *)
Definition callAction (action : Property) : list Effect :=
  match action with
  | Undefined => []
  | OwnAction a => [RunAction a]
  | InheritedFunction name => [CallBuiltin name]
  | InheritedObject => [ThrowTypeError]
  end.

(** The [for ... of Object.entries(shortcuts)] loop of the listener; the
    list is [Object.entries(shortcuts)], in its iteration order. The
    [return] after the first match ends the loop. *)
Fixpoint dispatch (e : KeyboardEvent) (entries : list (string * Shortcut)) : list Effect :=
  match entries with
  | [] => []
  | (actionId, shortcut) :: rest =>
      if matchesShortcut e shortcut
      then PreventDefault :: callAction (SHORTCUT_ACTIONS actionId)
      else dispatch e rest
  end.

(** The effects that invoke something: a registered action or a built-in. *)
Definition isCall (x : Effect) : bool :=
  match x with
  | RunAction _ | CallBuiltin _ => true
  | PreventDefault | ThrowTypeError => false
  end.

(** The number of functions the listener invokes. *)
Definition callCount (effects : list Effect) : nat :=
  length (List.filter isCall effects).

(** ** Settings (js/modules/settings.js) *)

Definition DEFAULT_OOS_PATTERNS : list string :=
  [ "^/_next/"; "^/__nextjs"; "^/next/"; "^/_app/"; "^/@svelte";
    "^\.svelte-kit/"; "^/_nuxt/"; "^/__nuxt"; "^/@vite"; "^/@react-refresh";
    "^/@id/"; "^/node_modules/"; "^/__vite_"; "^/webpack"; "\.hot-update\.";
    "^/sockjs-node"; "\.map$"; "^/_ws$"; "^/ws$"; "^/socket\.io";
    "^/static/chunks/"; "^/static/development/"; "^/static/webpack/";
    "^/_buildManifest\.js"; "^/_ssgManifest\.js"; "^/gtm\.js"; "^/gtag/";
    "/analytics"; "/collect\?"; "^/cdn-cgi/"; "\?t=\d+$"; "^/hmr$";
    "/log\?"; "/punctual"; "/_/scs/" ].

(** [settings.keyboardShortcuts.default], as [Object.entries] lists it. *)
Definition DEFAULT_SHORTCUTS : list (string * Shortcut) :=
  [ ("sendRequest",
     {| key := "Space"; ctrl := true; shift := false; alt := false;
        description := "Send request" |});
    ("clearInput",
     {| key := "KeyL"; ctrl := true; shift := false; alt := false;
        description := "Clear request input" |});
    ("toggleOOS",
     {| key := "KeyO"; ctrl := true; shift := true; alt := false;
        description := "Toggle OOS visibility" |}) ].

(** The [value] fields of the [settings] object. A list or map setting
    may hold [null] ([None]); the entries of the shortcut map are kept in
    [Object.entries] order. *)
Record Settings := {
  anthropicApiKey : string;
  anthropicModel : string;
  enableCorsForAllHosts : bool;
  oosPatterns : option (list string);
  inScopePatterns : option (list string);
  keyboardShortcuts : option (list (string * Shortcut))
}.

(** The [settings] literal as the module is evaluated. *)
Definition initialSettings : Settings :=
  {| anthropicApiKey := "";
     anthropicModel := "claude-3-5-sonnet-20241022";
     enableCorsForAllHosts := false;
     oosPatterns := Some [];
     inScopePatterns := Some [];
     keyboardShortcuts := Some [] |}.

(** The shortcut table the listener uses: the stored one when it is set
    and has at least one key, the default one otherwise. *)
Definition activeShortcuts (s : Settings) : list (string * Shortcut) :=
  match keyboardShortcuts s with
  | Some (b :: bs) => b :: bs
  | _ => DEFAULT_SHORTCUTS
  end.

(** The [keydown] listener installed by [initKeyboardShortcuts]. *)
Definition keydownListener (s : Settings) (e : KeyboardEvent) : list Effect :=
  dispatch e (activeShortcuts s).

(** What [JSON.parse] of the stored settings yields, per key of
    [settings]: [None] where [parsed[key]] is [undefined]. *)
Record StoredSettings := {
  stored_anthropicApiKey : option string;
  stored_anthropicModel : option string;
  stored_enableCorsForAllHosts : option bool;
  stored_oosPatterns : option (option (list string));
  stored_inScopePatterns : option (option (list string));
  stored_keyboardShortcuts : option (option (list (string * Shortcut)))
}.

(** [Object.keys(settings).forEach(key => { if (parsed[key] !== undefined)
    settings[key].value = parsed[key]; })]. *)
Definition applyStored (parsed : StoredSettings) (s : Settings) : Settings :=
  {| anthropicApiKey := default (anthropicApiKey s) (stored_anthropicApiKey parsed);
     anthropicModel := default (anthropicModel s) (stored_anthropicModel parsed);
     enableCorsForAllHosts :=
       default (enableCorsForAllHosts s) (stored_enableCorsForAllHosts parsed);
     oosPatterns := default (oosPatterns s) (stored_oosPatterns parsed);
     inScopePatterns := default (inScopePatterns s) (stored_inScopePatterns parsed);
     keyboardShortcuts := default (keyboardShortcuts s) (stored_keyboardShortcuts parsed) |}.

Definition set_enableCorsForAllHosts (b : bool) (s : Settings) : Settings :=
  {| anthropicApiKey := anthropicApiKey s;
     anthropicModel := anthropicModel s;
     enableCorsForAllHosts := b;
     oosPatterns := oosPatterns s;
     inScopePatterns := inScopePatterns s;
     keyboardShortcuts := keyboardShortcuts s |}.

Definition set_oosPatterns (v : option (list string)) (s : Settings) : Settings :=
  {| anthropicApiKey := anthropicApiKey s;
     anthropicModel := anthropicModel s;
     enableCorsForAllHosts := enableCorsForAllHosts s;
     oosPatterns := v;
     inScopePatterns := inScopePatterns s;
     keyboardShortcuts := keyboardShortcuts s |}.

(** ** Session state (the [state] object of state.js) *)

(** A reference to a JavaScript object. *)
Abbreviation objref := positive.

(** A captured request: [request.request.url] and the flag [request.isOOS]. *)
Record CapturedRequest := {
  request_url : string;
  isOOS : bool
}.

Definition set_isOOS (b : bool) (r : CapturedRequest) : CapturedRequest :=
  {| request_url := request_url r; isOOS := b |}.

(** The fields of [state] the two modules use. [requests] is the array
    [state.requests]: references into the store of the [World]. *)
Record State := {
  requests : list objref;
  currentResponse : option string;
  regularRequestBaseline : option string;
  requestHistory : list (string * bool)
}.

Definition set_currentResponse (v : option string) (s : State) : State :=
  {| requests := requests s; currentResponse := v;
     regularRequestBaseline := regularRequestBaseline s;
     requestHistory := requestHistory s |}.

Definition set_regularRequestBaseline (v : option string) (s : State) : State :=
  {| requests := requests s; currentResponse := currentResponse s;
     regularRequestBaseline := v;
     requestHistory := requestHistory s |}.

Definition set_requestHistory (v : list (string * bool)) (s : State) : State :=
  {| requests := requests s; currentResponse := currentResponse s;
     regularRequestBaseline := regularRequestBaseline s;
     requestHistory := v |}.

(** The pattern lists the classifier in state.js holds. *)
Record Classifier := {
  classifier_oos : list string;
  classifier_inScope : list string
}.

(** ** The DOM elements of the request panel *)

(** What [rawResponseDisplay] shows: markup assigned to [innerHTML], or
    plain text assigned to [textContent]. *)
Inductive Content :=
| InnerHTML (markup : string)
| TextContent (text : string).

Record Elements := {
  rawRequestInput_innerText : string;
  useHttpsCheckbox_checked : bool;
  resStatus_textContent : string;
  resStatus_className : string;
  resTime_textContent : string;
  resSize_textContent : string;
  rawResponseDisplay : Content;
  rawResponseDisplay_style_display : string;
  rawResponseDisplay_style_visibility : string;
  diffToggle_style_display : string;
  (* [None] when the checkbox element is missing, else its [checked] *)
  showDiffCheckbox : option bool
}.

Definition set_resStatus (text cls : string) (el : Elements) : Elements :=
  {| rawRequestInput_innerText := rawRequestInput_innerText el;
     useHttpsCheckbox_checked := useHttpsCheckbox_checked el;
     resStatus_textContent := text;
     resStatus_className := cls;
     resTime_textContent := resTime_textContent el;
     resSize_textContent := resSize_textContent el;
     rawResponseDisplay := rawResponseDisplay el;
     rawResponseDisplay_style_display := rawResponseDisplay_style_display el;
     rawResponseDisplay_style_visibility := rawResponseDisplay_style_visibility el;
     diffToggle_style_display := diffToggle_style_display el;
     showDiffCheckbox := showDiffCheckbox el |}.

Definition set_resTime (text : string) (el : Elements) : Elements :=
  {| rawRequestInput_innerText := rawRequestInput_innerText el;
     useHttpsCheckbox_checked := useHttpsCheckbox_checked el;
     resStatus_textContent := resStatus_textContent el;
     resStatus_className := resStatus_className el;
     resTime_textContent := text;
     resSize_textContent := resSize_textContent el;
     rawResponseDisplay := rawResponseDisplay el;
     rawResponseDisplay_style_display := rawResponseDisplay_style_display el;
     rawResponseDisplay_style_visibility := rawResponseDisplay_style_visibility el;
     diffToggle_style_display := diffToggle_style_display el;
     showDiffCheckbox := showDiffCheckbox el |}.

Definition set_resSize (text : string) (el : Elements) : Elements :=
  {| rawRequestInput_innerText := rawRequestInput_innerText el;
     useHttpsCheckbox_checked := useHttpsCheckbox_checked el;
     resStatus_textContent := resStatus_textContent el;
     resStatus_className := resStatus_className el;
     resTime_textContent := resTime_textContent el;
     resSize_textContent := text;
     rawResponseDisplay := rawResponseDisplay el;
     rawResponseDisplay_style_display := rawResponseDisplay_style_display el;
     rawResponseDisplay_style_visibility := rawResponseDisplay_style_visibility el;
     diffToggle_style_display := diffToggle_style_display el;
     showDiffCheckbox := showDiffCheckbox el |}.

Definition set_rawResponseDisplay (c : Content) (el : Elements) : Elements :=
  {| rawRequestInput_innerText := rawRequestInput_innerText el;
     useHttpsCheckbox_checked := useHttpsCheckbox_checked el;
     resStatus_textContent := resStatus_textContent el;
     resStatus_className := resStatus_className el;
     resTime_textContent := resTime_textContent el;
     resSize_textContent := resSize_textContent el;
     rawResponseDisplay := c;
     rawResponseDisplay_style_display := rawResponseDisplay_style_display el;
     rawResponseDisplay_style_visibility := rawResponseDisplay_style_visibility el;
     diffToggle_style_display := diffToggle_style_display el;
     showDiffCheckbox := showDiffCheckbox el |}.

Definition set_rawResponseDisplay_style (display visibility : string)
    (el : Elements) : Elements :=
  {| rawRequestInput_innerText := rawRequestInput_innerText el;
     useHttpsCheckbox_checked := useHttpsCheckbox_checked el;
     resStatus_textContent := resStatus_textContent el;
     resStatus_className := resStatus_className el;
     resTime_textContent := resTime_textContent el;
     resSize_textContent := resSize_textContent el;
     rawResponseDisplay := rawResponseDisplay el;
     rawResponseDisplay_style_display := display;
     rawResponseDisplay_style_visibility := visibility;
     diffToggle_style_display := diffToggle_style_display el;
     showDiffCheckbox := showDiffCheckbox el |}.

Definition set_diffToggle_style_display (display : string) (el : Elements) : Elements :=
  {| rawRequestInput_innerText := rawRequestInput_innerText el;
     useHttpsCheckbox_checked := useHttpsCheckbox_checked el;
     resStatus_textContent := resStatus_textContent el;
     resStatus_className := resStatus_className el;
     resTime_textContent := resTime_textContent el;
     resSize_textContent := resSize_textContent el;
     rawResponseDisplay := rawResponseDisplay el;
     rawResponseDisplay_style_display := rawResponseDisplay_style_display el;
     rawResponseDisplay_style_visibility := rawResponseDisplay_style_visibility el;
     diffToggle_style_display := display;
     showDiffCheckbox := showDiffCheckbox el |}.

(** ** The world the handlers run in *)

(** The options object [parseRequest] builds for [executeRequest]. *)
Record RequestOptions := {
  method : string;
  options_headers : list (string * string);
  options_body : option string
}.

(** The part of [parseRequest]'s result that [handleSendRequest] uses. *)
Record ParsedRequest := {
  url : string;
  options : RequestOptions
}.

(** The value [executeRequest] resolves with. *)
Record Response := {
  status : N;
  statusText : string;
  duration : N;
  size : N;
  headers : list (string * string);
  body : string
}.

Inductive ConsoleEntry :=
| ConsoleLog (label text : string)
| ConsoleError (label : string) (err : JsError).

(** Calls to the collaborating modules, in the order they are made. *)
Inductive Call :=
| CallAddToHistory (rawText : string) (useHttps : bool)
| CallUpdateHistoryButtons
| CallParseRequest (rawText : string) (useHttps : bool)
| CallExecuteRequest (target : string) (opts : RequestOptions)
| CallCheckCorsPermission
| CallUpdateOOSPatterns (patterns : list string).

Record World := {
  state : State;
  store : gmap objref CapturedRequest;
  classifier : Classifier;
  settings : Settings;
  elements : Elements;
  localStorage_rep_settings : option string;
  console : list ConsoleEntry;
  calls : list Call
}.

Definition with_state (f : State → State) (w : World) : World :=
  {| state := f (state w); store := store w; classifier := classifier w;
     settings := settings w; elements := elements w;
     localStorage_rep_settings := localStorage_rep_settings w;
     console := console w; calls := calls w |}.

Definition with_store (f : gmap objref CapturedRequest → gmap objref CapturedRequest)
    (w : World) : World :=
  {| state := state w; store := f (store w); classifier := classifier w;
     settings := settings w; elements := elements w;
     localStorage_rep_settings := localStorage_rep_settings w;
     console := console w; calls := calls w |}.

Definition with_classifier (f : Classifier → Classifier) (w : World) : World :=
  {| state := state w; store := store w; classifier := f (classifier w);
     settings := settings w; elements := elements w;
     localStorage_rep_settings := localStorage_rep_settings w;
     console := console w; calls := calls w |}.

Definition with_settings (f : Settings → Settings) (w : World) : World :=
  {| state := state w; store := store w; classifier := classifier w;
     settings := f (settings w); elements := elements w;
     localStorage_rep_settings := localStorage_rep_settings w;
     console := console w; calls := calls w |}.

Definition with_elements (f : Elements → Elements) (w : World) : World :=
  {| state := state w; store := store w; classifier := classifier w;
     settings := settings w; elements := f (elements w);
     localStorage_rep_settings := localStorage_rep_settings w;
     console := console w; calls := calls w |}.

Definition with_console (f : list ConsoleEntry → list ConsoleEntry) (w : World) : World :=
  {| state := state w; store := store w; classifier := classifier w;
     settings := settings w; elements := elements w;
     localStorage_rep_settings := localStorage_rep_settings w;
     console := f (console w); calls := calls w |}.

Definition with_calls (f : list Call → list Call) (w : World) : World :=
  {| state := state w; store := store w; classifier := classifier w;
     settings := settings w; elements := elements w;
     localStorage_rep_settings := localStorage_rep_settings w;
     console := console w; calls := f (calls w) |}.

(** *** State and exceptions *)

Inductive Completion (A : Type) :=
| Normal (a : A)
| Throw (err : JsError).
Arguments Normal {A} a.
Arguments Throw {A} err.

(** A JavaScript computation: it ends normally or throws, and leaves a
    world behind either way. *)
Definition JS (A : Type) : Type := World → Completion A * World.

#[global] Instance JS_ret : MRet JS := λ A a w, (Normal a, w).

#[global] Instance JS_bind : MBind JS := λ A B k m w,
  match m w with
  | (Normal a, w') => k a w'
  | (Throw err, w') => (Throw err, w')
  end.

(** [try { m } catch (err) { handler err }]. *)
Definition tryCatch {A} (m : JS A) (handler : JsError → JS A) : JS A := λ w,
  match m w with
  | (Normal a, w') => (Normal a, w')
  | (Throw err, w') => handler err w'
  end.

Definition gets {A} (f : World → A) : JS A := λ w, (Normal (f w), w).

Definition modify (f : World → World) : JS unit := λ w, (Normal (), f w).

(** A call whose outcome is decided outside: it returns or throws. *)
Definition outcome {A} (r : JsError + A) : JS A := λ w,
  match r with
  | inr a => (Normal a, w)
  | inl err => (Throw err, w)
  end.

Definition record (c : Call) : JS unit := modify (with_calls (λ cs, (cs ++ [c])%list)).

Definition console_log (label text : string) : JS unit :=
  modify (with_console (λ cs, (cs ++ [ConsoleLog label text])%list)).

Definition console_error (label : string) (err : JsError) : JS unit :=
  modify (with_console (λ cs, (cs ++ [ConsoleError label err])%list)).

(** The world a computation leaves behind. *)
Definition run {A} (m : JS A) (w : World) : World := (m w).2.

(** ** Collaborators

    Pure functions the two modules import or call and whose code is
    elsewhere (network.js, utils.js, state.js, the JSON object). A call
    that can throw returns [inl err]. *)
Class Imports := {
  parseRequest : string → bool → JsError + ParsedRequest;
  formatBytes : N → string;
  renderDiff : string → string → string;
  highlightHTTP : string → string;
  (* JSON.stringify(JSON.parse(body), null, 2), None when JSON.parse throws *)
  JSON_reformat : string → option string;
  (* JSON.parse of the stored settings and the reads parsed[key] *)
  JSON_parse : string → JsError + StoredSettings;
  (* isOutOfScope(url), under the pattern lists state.js holds *)
  isOutOfScope : Classifier → string → bool
}.

(** The network as one send meets it: what the promise of
    [executeRequest(url, options)] settles to, [inl err] when it rejects. *)
Definition Network : Type := string → RequestOptions → JsError + Response.

(** What the promise of [checkCorsPermission()] settles to. *)
Definition Permission : Type := (JsError + bool)%type.

(** Modelled from the spec: [addToHistory] of state.js, which is not among
    the sources. Section 6 gives it as [addToHistory(rawRequestText,
    useHttps)], a fire-and-forget append to the request history. *)
Definition addToHistory (rawText : string) (useHttps : bool) : JS unit :=
  record (CallAddToHistory rawText useHttps);;
  modify (with_state
    (λ s, set_requestHistory (requestHistory s ++ [(rawText, useHttps)])%list s)).

(** [updateHistoryButtons] of ui.js only redraws two buttons. *)
Definition updateHistoryButtons : JS unit := record CallUpdateHistoryButtons.

(** Modelled from the spec: [updateOOSPatterns] of state.js, which is not
    among the sources. It hands the classifier its current OOS pattern
    list (section 4.2: the classifier works on "the current lists"). *)
Definition updateOOSPatterns (patterns : list string) : JS unit :=
  record (CallUpdateOOSPatterns patterns);;
  modify (with_classifier
    (λ c, {| classifier_oos := patterns; classifier_inScope := classifier_inScope c |})).

(** ** [handleSendRequest] (request handler module) *)

(** The class given to the status badge; [current] is the class it has
    when no branch of the [if ... else if] chain applies. *)
Definition statusClassName (st : N) (current : string) : string :=
  if (200 <=? st)%N && (st <? 300)%N then "status-badge status-2xx"
  else if (400 <=? st)%N && (st <? 500)%N then "status-badge status-4xx"
  else if (500 <=? st)%N then "status-badge status-5xx"
  else current.

(** The status line and the header lines of the raw response. *)
Definition responseHead (result : Response) : string :=
  foldl (λ rawResponse '(k, v), rawResponse +:+ (k +:+ ": " +:+ v +:+ nl))
        ("HTTP/1.1 " +:+ pretty (status result) +:+ " " +:+ statusText result +:+ nl)
        (headers result).

(** [rawResponse]: head, empty line, then the body, re-indented when it
    parses as JSON. *)
Definition buildRawResponse `{!Imports} (result : Response) : string :=
  let rawResponse := responseHead result +:+ nl in
  match JSON_reformat (body result) with
  | Some json => rawResponse +:+ json
  | None => rawResponse +:+ body result
  end.

(** Whether an element reference is set. *)
Definition present {A} (element : option A) : bool :=
  if element is Some _ then true else false.

(** The [Handle Diff Baseline] statement and the one after it. *)
Definition showResponse `{!Imports} (rawResponse : string) : JS unit :=
  baseline ← gets (λ w, regularRequestBaseline (state w));
  (if negb (truthy baseline) then
     modify (with_state (set_regularRequestBaseline (Some rawResponse)));;
     modify (with_elements (set_diffToggle_style_display "none"))
   else
     modify (with_elements (set_diffToggle_style_display "flex"));;
     showDiff ← gets (λ w, showDiffCheckbox (elements w));
     if showDiff is Some true then
       (* the baseline is truthy here, hence a string *)
       modify (with_elements (set_rawResponseDisplay
         (InnerHTML (renderDiff (default "" baseline) rawResponse))))
     else
       modify (with_elements (set_rawResponseDisplay
         (InnerHTML (highlightHTTP rawResponse)))));;
  showDiff ← gets (λ w, showDiffCheckbox (elements w));
  baseline ← gets (λ w, regularRequestBaseline (state w));
  if negb (present showDiff)
     || negb (default false showDiff)
     || negb (truthy baseline)
     || bool_decide (baseline = Some rawResponse)
  then modify (with_elements (set_rawResponseDisplay
         (InnerHTML (highlightHTTP rawResponse))))
  else mret ().

(** The body of the [try] block. *)
Definition sendAndShow `{!Imports} (executeRequest : Network)
    (rawContent : string) (useHttps : bool) : JS unit :=
  record (CallParseRequest rawContent useHttps);;
  parsed ← outcome (parseRequest rawContent useHttps);
  modify (with_elements (set_resStatus "Sending..." "status-badge"));;
  console_log "Sending request to:" (url parsed);;
  record (CallExecuteRequest (url parsed) (options parsed));;
  result ← outcome (executeRequest (url parsed) (options parsed));
  modify (with_elements (set_resTime (pretty (duration result) +:+ "ms")));;
  modify (with_elements (set_resSize (formatBytes (size result))));;
  modify (with_elements (λ el,
    set_resStatus (pretty (status result) +:+ " " +:+ statusText result)
                  (statusClassName (status result) (resStatus_className el)) el));;
  let rawResponse := buildRawResponse result in
  modify (with_state (set_currentResponse (Some rawResponse)));;
  showResponse rawResponse;;
  modify (with_elements (set_rawResponseDisplay_style "block" "visible")).

(** The [catch] block. *)
Definition showFailure (err : JsError) : JS unit :=
  console_error "Request Failed:" err;;
  modify (with_elements (set_resStatus "Error" "status-badge status-5xx"));;
  modify (with_elements (set_resTime "0ms"));;
  modify (with_elements (set_rawResponseDisplay
    (TextContent ("Error: " +:+ message err +:+ nl +:+ nl +:+ "Stack: " +:+ stack err))));;
  modify (with_elements (λ el,
    set_rawResponseDisplay_style "block" (rawResponseDisplay_style_visibility el) el)).

Definition handleSendRequest `{!Imports} (executeRequest : Network) : JS unit :=
  rawContent ← gets (λ w, rawRequestInput_innerText (elements w));
  useHttps ← gets (λ w, useHttpsCheckbox_checked (elements w));
  addToHistory rawContent useHttps;;
  updateHistoryButtons;;
  tryCatch (sendAndShow executeRequest rawContent useHttps) showFailure.

(** ** [reclassifyAllRequests] and [loadSettings] (settings.js) *)

(** [request.isOOS = isOutOfScope(request.request.url)]. *)
Definition reclassify `{!Imports} (c : Classifier) (request : CapturedRequest)
    : CapturedRequest :=
  set_isOOS (isOutOfScope c (request_url request)) request.

(** The same assignment on the object a reference of the array points to. *)
Definition reclassifyOne `{!Imports} (c : Classifier)
    (h : gmap objref CapturedRequest) (r : objref) : gmap objref CapturedRequest :=
  alter (reclassify c) r h.

(** [state.requests.forEach(request => ...)]. *)
Definition reclassifyAllRequests `{!Imports} : JS unit :=
  modify (λ w, with_store (λ h, foldl (reclassifyOne (classifier w)) h (requests (state w))) w).

(** [!value || value.length === 0] on a list setting. *)
Definition noPatterns (v : option (list string)) : bool :=
  match v with
  | Some (_ :: _) => false
  | _ => true
  end.

(** The [if (stored) { ... }] statement of [loadSettings]. *)
Definition readStored `{!Imports} : JS unit :=
  stored ← gets localStorage_rep_settings;
  if truthy stored then
    parsed ← outcome (JSON_parse (default "" stored));
    modify (with_settings (applyStored parsed))
  else mret ().

(** The body of the [try] block of [loadSettings]. *)
Definition loadStored `{!Imports} (checkCorsPermission : Permission) : JS unit :=
  readStored;;
  record CallCheckCorsPermission;;
  hasPermission ← outcome checkCorsPermission;
  modify (with_settings (set_enableCorsForAllHosts hasPermission));;
  value ← gets (λ w, oosPatterns (settings w));
  (if noPatterns value then
     modify (with_settings (set_oosPatterns (Some DEFAULT_OOS_PATTERNS)))
   else mret ());;
  (* the value is a list by now *)
  value ← gets (λ w, oosPatterns (settings w));
  updateOOSPatterns (default [] value);;
  reclassifyAllRequests.

Definition loadSettings `{!Imports} (checkCorsPermission : Permission) : JS unit :=
  tryCatch (loadStored checkCorsPermission) (console_error "Failed to load settings:").

(** ** Pattern matcher and scope classifier *)

(** The two host facilities the classifier rests on. *)
Class Engine := {
  (* new RegExp(pattern): None when the constructor throws, else its test *)
  RegExp : string → option (string → bool);
  (* new URL(url): pathname + search, None when the constructor throws *)
  pathAndQuery : string → option string
}.

(** Modelled from the spec: the pattern matcher of state.js, which is not
    among the sources. Section 4.1: a pattern matches when its regular
    expression is found anywhere in the path; section 7: a pattern that
    does not compile matches nothing. *)
Definition patternMatches `{!Engine} (path pattern : string) : bool :=
  match RegExp pattern with
  | Some test => test path
  | None => false
  end.

(** Modelled from the spec: [matches(path, patterns)] of section 4.1, true
    when any pattern of the sequence matches. *)
Definition matches `{!Engine} (path : string) (patterns : list string) : bool :=
  existsb (patternMatches path) patterns.

(** Modelled from the spec: [classify(url, oosPatterns, inScopePatterns)]
    of section 4.2 ([isOutOfScope] of state.js, which is not among the
    sources). A malformed URL is not out of scope (section 7). *)
Definition classify `{!Engine} (u : string) (oos inScope : list string) : bool :=
  match pathAndQuery u with
  | None => false
  | Some path => if matches path inScope then false else matches path oos
  end.

(** ** A concrete environment

    Small stand-ins for the collaborators, and a few worlds, on which the
    definitions above can be evaluated. *)
Module Demo.

(** A pattern read as a literal that must occur in the path, or start
    it when the pattern begins with [^]. *)
Definition contains (needle hay : string) : bool :=
  if String.prefix "^" needle
  then String.prefix (String.substring 1 (String.length needle) needle) hay
  else if String.index 0 needle hay is Some _ then true else false.

(** Everything from the first [/] after [://]; no [://], no URL. *)
Definition afterHost (u : string) : option string :=
  match String.index 0 "://" u with
  | None => None
  | Some i =>
      let rest := String.substring (i + 3) (String.length u) u in
      match String.index 0 "/" rest with
      | Some j => Some (String.substring j (String.length rest) rest)
      | None => Some "/"
      end
  end.

Definition engine : Engine :=
  {| RegExp := λ pattern, if pattern =? "(" then None else Some (contains pattern);
     pathAndQuery := afterHost |}.

Definition noStored : StoredSettings :=
  {| stored_anthropicApiKey := None; stored_anthropicModel := None;
     stored_enableCorsForAllHosts := None; stored_oosPatterns := None;
     stored_inScopePatterns := None; stored_keyboardShortcuts := None |}.

Definition imports : Imports :=
  {| parseRequest := λ raw https,
       if raw =? "" then inl {| message := "Invalid request"; stack := "at parseRequest" |}
       else inr {| url := (if https then "https://" else "http://") +:+ "example.com/";
                   options := {| method := "GET"; options_headers := [];
                                 options_body := None |} |};
     formatBytes := λ n, pretty n +:+ " B";
     renderDiff := λ old new, "<diff>" +:+ old +:+ "<with>" +:+ new;
     highlightHTTP := λ text, "<pre>" +:+ text;
     JSON_reformat := λ _, None;
     JSON_parse := λ text,
       if text =? "{}" then inr noStored
       else inl {| message := "Unexpected token"; stack := "at JSON.parse" |};
     isOutOfScope := λ c u,
       @classify engine u (classifier_oos c) (classifier_inScope c) |}.

Definition response (text : string) : Response :=
  {| status := 200; statusText := "OK"; duration := 12; size := 5;
     headers := [("content-type", "text/plain")]; body := text |}.

(** A network that answers every request with the same body. *)
Definition answering (text : string) : Network := λ _ _, inr (response text).

(** A network on which every request times out. *)
Definition timeout : JsError := {| message := "timeout"; stack := "Error: timeout" |}.
Definition unreachable : Network := λ _ _, inl timeout.

Definition panel : Elements :=
  {| rawRequestInput_innerText := "GET / HTTP/1.1";
     useHttpsCheckbox_checked := true;
     resStatus_textContent := ""; resStatus_className := "status-badge";
     resTime_textContent := ""; resSize_textContent := "";
     rawResponseDisplay := InnerHTML "";
     rawResponseDisplay_style_display := "none";
     rawResponseDisplay_style_visibility := "hidden";
     diffToggle_style_display := "none";
     showDiffCheckbox := Some true |}.

(** The world at start-up, with two captured requests, the first of which
    is listed twice. *)
Definition start : World :=
  {| state := {| requests := [1; 2; 1]%positive; currentResponse := None;
                 regularRequestBaseline := None; requestHistory := [] |};
     store := {[ 1%positive := {| request_url := "https://example.com/api/users";
                                  isOOS := true |};
                 2%positive := {| request_url := "https://example.com/_next/chunk.js";
                                  isOOS := false |} ]};
     classifier := {| classifier_oos := DEFAULT_OOS_PATTERNS; classifier_inScope := [] |};
     settings := initialSettings;
     elements := panel;
     localStorage_rep_settings := None;
     console := [];
     calls := [] |}.

(** The text of the response whose body is [text]. *)
Definition raw (text : string) : string := @buildRawResponse imports (response text).

(** The world after a first send answered with [hello], and after a second
    one answered with [world]. *)
Definition afterHello : World :=
  run (@handleSendRequest imports (answering "hello")) start.

Definition afterWorld : World :=
  run (@handleSendRequest imports (answering "world")) afterHello.

(** The error of a page in which [chrome.permissions] is not there. *)
Definition noPermissions : JsError :=
  {| message := "Cannot read properties of undefined (reading 'contains')";
     stack := "at checkCorsPermission" |}.

(** The world at start-up when the stored settings are not valid JSON. *)
Definition corrupted : World :=
  {| state := state start; store := store start; classifier := classifier start;
     settings := settings start; elements := elements start;
     localStorage_rep_settings := Some "{oosPatterns";
     console := []; calls := [] |}.

Definition ctrlSpace : KeyboardEvent :=
  {| code := "Space"; ctrlKey := true; metaKey := false; shiftKey := false;
     altKey := false |}.

Definition ctrlShiftSpace : KeyboardEvent :=
  {| code := "Space"; ctrlKey := true; metaKey := false; shiftKey := true;
     altKey := false |}.

Definition chordCtrlSpace : Shortcut :=
  {| key := "Space"; ctrl := true; shift := false; alt := false;
     description := "Send request" |}.

Definition chordCtrlL : Shortcut :=
  {| key := "KeyL"; ctrl := true; shift := false; alt := false;
     description := "Clear request input" |}.

End Demo.

(** ** The shortcut settings (settings.js) *)

Definition set_keyboardShortcuts (v : option (list (string * Shortcut)))
    (s : Settings) : Settings :=
  {| anthropicApiKey := anthropicApiKey s;
     anthropicModel := anthropicModel s;
     enableCorsForAllHosts := enableCorsForAllHosts s;
     oosPatterns := oosPatterns s;
     inScopePatterns := inScopePatterns s;
     keyboardShortcuts := v |}.

(** The comparison [findShortcutConflict] makes between two chords: the
    key and the three flags, with [===]. *)
Definition sameChord (a b : Shortcut) : bool :=
  (key a =? key b) && Bool.eqb (ctrl a) (ctrl b)
  && Bool.eqb (shift a) (shift b) && Bool.eqb (alt a) (alt b).

(** The loop of [findShortcutConflict] over [Object.entries(shortcuts)]. *)
Fixpoint findConflictIn (excludeActionId : string) (newShortcut : Shortcut)
    (entries : list (string * Shortcut)) : option Shortcut :=
  match entries with
  | [] => None
  | (actionId, shortcut) :: rest =>
      if actionId =? excludeActionId then findConflictIn excludeActionId newShortcut rest
      else if sameChord shortcut newShortcut then Some shortcut
      else findConflictIn excludeActionId newShortcut rest
  end.

(** [findShortcutConflict(excludeActionId, newShortcut, 'keyboardShortcuts')]:
    [None] is the [null] it returns. *)
Definition findShortcutConflict (excludeActionId : string) (newShortcut : Shortcut)
    (st : Settings) : option Shortcut :=
  findConflictIn excludeActionId newShortcut (activeShortcuts st).

(** The property read [object[k]] on the entries of an object. *)
Fixpoint getEntry (k : string) (entries : list (string * Shortcut)) : option Shortcut :=
  match entries with
  | [] => None
  | (k', v) :: rest => if k' =? k then Some v else getEntry k rest
  end.

(** The assignment [object[k] = v] on the entries of an object: a key the
    object has keeps its place, a new key goes last (the order
    [Object.entries] gives to keys that are not array indices, as the
    action identifiers are). *)
Fixpoint setEntry (k : string) (v : Shortcut) (entries : list (string * Shortcut))
    : list (string * Shortcut) :=
  match entries with
  | [] => [(k, v)]
  | (k', v') :: rest =>
      if k' =? k then (k, v) :: rest else (k', v') :: setEntry k v rest
  end.

(** The spread [{ ...base, ...over }]. *)
Definition spread (base over : list (string * Shortcut)) : list (string * Shortcut) :=
  foldl (λ acc '(k, v), setEntry k v acc) base over.

(** The rows [createShortcutsInput] draws: the defaults merged with the
    stored bindings, [{ ...setting.default, ...(setting.value || {}) }]. *)
Definition shortcutRows (st : Settings) : list (string * Shortcut) :=
  spread DEFAULT_SHORTCUTS (default [] (keyboardShortcuts st)).

(** The name [formatShortcut] shows for a key code. *)
Definition keyName (k : string) : string :=
  if String.prefix "Key" k then String.substring 3 (String.length k) k
  else if k =? "Space" then "Space"
  else if String.prefix "Digit" k then String.substring 5 (String.length k) k
  else k.

(** The modifier names of a chord, in the order both [formatShortcut] and
    [getKeyboardShortcuts] list them. *)
Definition modifiers (s : Shortcut) : list string :=
  (if ctrl s then ["Ctrl"] else []) ++ (if shift s then ["Shift"] else [])
  ++ (if alt s then ["Alt"] else []).

(** [formatShortcut(shortcut)]. *)
Definition formatShortcut (s : Shortcut) : string :=
  String.concat " + " (modifiers s ++ [keyName (key s)]).

(** An entry of the list [getKeyboardShortcuts] returns. *)
Record ShortcutHelp := {
  help_key : string;
  help_modifiers : list string;
  help_description : string
}.

(** [getKeyboardShortcuts()]. *)
Definition getKeyboardShortcuts (st : Settings) : list ShortcutHelp :=
  map (λ '(_, s), {| help_key := key s; help_modifiers := modifiers s;
                     help_description := description s |})
      (activeShortcuts st).

(** A [keydown] event as the capture listener reads it: the fields the
    dispatcher reads, and [e.key]. *)
Record CaptureEvent := {
  pressed : KeyboardEvent;
  keyValue : string
}.

(** The chord the capture listener builds from an event. *)
Definition newShortcutOf (e : KeyboardEvent) (text : string) : Shortcut :=
  {| key := code e; ctrl := ctrlKey e || metaKey e; shift := shiftKey e;
     alt := altKey e; description := text |}.

(** The state of one row of the shortcuts tab: the [capturing] flag of its
    closure and the label of its button. *)
Record ShortcutButton := {
  capturing : bool;
  keyBtn_textContent : string
}.

Inductive Toast :=
| ToastSuccess (text : string)
| ToastError (text : string).

(** The double quote of the toast texts. *)
Definition dq : string := String (Ascii.ascii_of_nat 34) "".

(** A click on the key button of a row. *)
Definition clickKeyBtn (btn : ShortcutButton) : ShortcutButton :=
  if capturing btn then btn
  else {| capturing := true; keyBtn_textContent := "Press keys... (Esc to cancel)" |}.

(** The update of the setting in [handleKeyCapture]: an unset or empty
    map is first replaced by a copy of the defaults. *)
Definition assignShortcut (actionId : string) (s : Shortcut) (st : Settings) : Settings :=
  set_keyboardShortcuts (Some (setEntry actionId s (activeShortcuts st))) st.

(** [handleKeyCapture(e)] for the row of [actionId], drawn with the chord
    [shortcut] (of which [originalShortcut] is a copy); the listener is
    installed while the row is capturing. It yields the settings, the
    button and the toasts shown. *)
Definition handleKeyCapture (actionId : string) (shortcut : Shortcut) (e : CaptureEvent)
    (st : Settings) (btn : ShortcutButton) : Settings * ShortcutButton * list Toast :=
  if keyValue e =? "Escape" then
    (st, {| capturing := false; keyBtn_textContent := formatShortcut shortcut |}, [])
  else if bool_decide (keyValue e ∈ ["Control"; "Shift"; "Alt"; "Meta"]) then
    (st, btn, [])
  else
    let newShortcut := newShortcutOf (pressed e) (description shortcut) in
    match findShortcutConflict actionId newShortcut st with
    | Some conflict =>
        (st, {| capturing := false; keyBtn_textContent := formatShortcut shortcut |},
         [ToastError ("Conflict with " +:+ dq +:+ description conflict +:+ dq)])
    | None =>
        (assignShortcut actionId newShortcut st,
         {| capturing := false; keyBtn_textContent := formatShortcut newShortcut |},
         [ToastSuccess "Shortcut updated"])
    end.

(** The reset button of a row. [None] for an action that has no default:
    there the source stores an empty object and then throws in
    [formatShortcut(undefined)]. Only an unset map is replaced by a copy of
    the defaults, an empty one is not. *)
Definition resetShortcut (actionId : string) (st : Settings) (btn : ShortcutButton)
    : option (Settings * ShortcutButton * list Toast) :=
  match getEntry actionId DEFAULT_SHORTCUTS with
  | None => None
  | Some defaultShortcut =>
      let value := match keyboardShortcuts st with
                   | None => DEFAULT_SHORTCUTS
                   | Some v => v
                   end in
      Some (set_keyboardShortcuts (Some (setEntry actionId defaultShortcut value)) st,
            {| capturing := capturing btn;
               keyBtn_textContent := formatShortcut defaultShortcut |},
            [ToastSuccess "Shortcut reset to default"])
  end.

(** No binding of the table conflicts with a binding of another action,
    by the test of [findShortcutConflict] itself. *)
Definition conflictFree (entries : list (string * Shortcut)) : Prop :=
  Forall (λ b, findConflictIn b.1 b.2 entries = None) entries.

(** ** The pattern lists of the settings tab (settings.js) *)

(** A list input as [createListInput] builds it: the array
    [settings[key].value] and the rows on display, each with the index its
    delete button has captured and the text it shows. *)
Record ListInput := {
  items : list string;
  rows : list (nat * string)
}.

(** The texts on display. *)
Definition shown (ui : ListInput) : list string := (rows ui).*2.

(** [items.forEach((item, index) => list.appendChild(createListItem(item,
    index, key)))]. *)
Definition renderList (value : list string) : ListInput :=
  {| items := value; rows := imap (λ index item, (index, item)) value |}.



(** The click listener of the delete button of the row now at [position]:
    [settings[key].value.splice(index, 1)] with the index the row was
    created with, then [item.remove()]. The loop that follows rewrites
    [dataset.index] only, which nothing reads. *)
Definition deleteRow (position : nat) (ui : ListInput) : ListInput :=
  match rows ui !! position with
  | None => ui
  | Some (index, _) =>
      {| items := delete index (items ui); rows := delete position (rows ui) |}
  end.

(** ** Saving and resetting the settings (settings.js) *)

Definition with_localStorage (v : option string) (w : World) : World :=
  {| state := state w; store := store w; classifier := classifier w;
     settings := settings w; elements := elements w;
     localStorage_rep_settings := v;
     console := console w; calls := calls w |}.

(** What [JSON.stringify(toSave)] and [localStorage.setItem] come to for
    the values of the settings: the text now stored, or the error one of
    the two throws. *)
Definition Serializer : Type := Settings → JsError + string.

(** What [JSON.parse] reads back from a text [JSON.stringify] wrote: every
    key is there. *)
Definition storedOf (s : Settings) : StoredSettings :=
  {| stored_anthropicApiKey := Some (anthropicApiKey s);
     stored_anthropicModel := Some (anthropicModel s);
     stored_enableCorsForAllHosts := Some (enableCorsForAllHosts s);
     stored_oosPatterns := Some (oosPatterns s);
     stored_inScopePatterns := Some (inScopePatterns s);
     stored_keyboardShortcuts := Some (keyboardShortcuts s) |}.

(** [saveSettings()]. *)
Definition saveSettings (JSON_stringify : Serializer) : JS bool :=
  tryCatch
    (toSave ← gets settings;
     text ← outcome (JSON_stringify toSave);
     modify (with_localStorage (Some text));;
     mret true)
    (λ err, console_error "Failed to save settings:" err;; mret false).

(** [saveSettingsFromUI()]: [saveSettings] catches its own errors and
    [loadSettings] is a promise, so the outer [catch] is never entered.
    The load is followed to its end. *)
Definition saveSettingsFromUI `{!Imports} (JSON_stringify : Serializer)
    (checkCorsPermission : Permission) : JS bool :=
  saved ← saveSettings JSON_stringify;
  if (saved : bool) then loadSettings checkCorsPermission;; mret true
  else mret false.

(** The [default] fields of the [settings] object. *)
Definition defaultSettings : Settings :=
  {| anthropicApiKey := "";
     anthropicModel := "claude-3-5-sonnet-20241022";
     enableCorsForAllHosts := false;
     oosPatterns := Some DEFAULT_OOS_PATTERNS;
     inScopePatterns := Some [];
     keyboardShortcuts := Some DEFAULT_SHORTCUTS |}.

(** [resetSettings()]: every value becomes its default (arrays are
    copied), then the settings are saved and loaded again. *)
Definition resetSettings `{!Imports} (JSON_stringify : Serializer)
    (checkCorsPermission : Permission) : JS unit :=
  modify (with_settings (λ _, defaultSettings));;
  saveSettings JSON_stringify;;
  loadSettings checkCorsPermission.

(** The list [loadSettings] settles on: the given one, or the defaults
    when it is unset or empty. *)
Definition orDefaults (v : option (list string)) : list string :=
  if noPatterns v then DEFAULT_OOS_PATTERNS else default [] v.

(** ** Sends in a row *)

(** The world after the send button is used once per element of
    [networks], each send meeting the network of its turn. *)
Definition sendEach `{!Imports} (networks : list Network) (w : World) : World :=
  foldl (λ w' executeRequest, run (handleSendRequest executeRequest) w') w networks.

(** ** More concrete data *)
Module Sample.

(** Ctrl+Shift+Space and Ctrl+Space as the capture listener sees them,
    and the Escape key. *)
Definition pressCtrlShiftSpace : CaptureEvent :=
  {| pressed := Demo.ctrlShiftSpace; keyValue := " " |}.

Definition pressCtrlSpace : CaptureEvent :=
  {| pressed := Demo.ctrlSpace; keyValue := " " |}.

Definition pressEscape : CaptureEvent :=
  {| pressed := {| code := "Escape"; ctrlKey := false; metaKey := false;
                   shiftKey := false; altKey := false |};
     keyValue := "Escape" |}.

(** The button of a row that is capturing. *)
Definition listening : ShortcutButton :=
  {| capturing := true; keyBtn_textContent := "Press keys... (Esc to cancel)" |}.

(** The settings after [sendRequest] is rebound to Ctrl+Shift+Space, and
    after [clearInput] is then rebound to the freed Ctrl+Space. *)
Definition sendMoved : Settings :=
  (handleKeyCapture "sendRequest" Demo.chordCtrlSpace pressCtrlShiftSpace
     initialSettings listening).1.1.

Definition clearTookCtrlSpace : Settings :=
  (handleKeyCapture "clearInput" Demo.chordCtrlL pressCtrlSpace sendMoved listening).1.1.

(** Settings whose stored table binds [sendRequest] only. *)
Definition onlySend : Settings :=
  set_keyboardShortcuts (Some [("sendRequest", Demo.chordCtrlSpace)]) initialSettings.

#[global] Instance Shortcut_eq_dec : EqDecision Shortcut.
Proof. solve_decision. Defined.

#[global] Instance Settings_eq_dec : EqDecision Settings.
Proof. solve_decision. Defined.

(** A stand-in for [JSON.stringify] and [localStorage.setItem] that knows
    two values of the settings, and the storage being full. *)
Definition quotaExceeded : JsError :=
  {| message := "The quota has been exceeded."; stack := "at saveSettings" |}.

Definition stringify : Serializer := λ s,
  if bool_decide (s = defaultSettings) then inr "{defaults}"
  else if bool_decide (s = sendMoved) then inr "{sendMoved}"
  else inl quotaExceeded.

Definition storageFull : Serializer := λ _, inl quotaExceeded.

(** The collaborators of [Demo], with a [JSON.parse] that reads back what
    [stringify] writes. *)
Definition imports : Imports :=
  {| parseRequest := @parseRequest Demo.imports;
     formatBytes := @formatBytes Demo.imports;
     renderDiff := @renderDiff Demo.imports;
     highlightHTTP := @highlightHTTP Demo.imports;
     JSON_reformat := @JSON_reformat Demo.imports;
     JSON_parse := λ text,
       if text =? "{defaults}" then inr (storedOf defaultSettings)
       else if text =? "{sendMoved}" then inr (storedOf sendMoved)
       else @JSON_parse Demo.imports text;
     isOutOfScope := @isOutOfScope Demo.imports |}.

(** The start-up world with the default settings in memory, with the
    rebound shortcut in memory, and with the rebound shortcut in storage. *)
Definition withDefaults : World := with_settings (λ _, defaultSettings) Demo.start.

Definition withSendMoved : World := with_settings (λ _, sendMoved) Demo.start.

Definition sendMovedStored : World := with_localStorage (Some "{sendMoved}") Demo.start.

(** The start-up world with nothing typed in the request input. *)
Definition nothingTyped : World :=
  with_elements
    (λ el,
       {| rawRequestInput_innerText := "";
          useHttpsCheckbox_checked := useHttpsCheckbox_checked el;
          resStatus_textContent := resStatus_textContent el;
          resStatus_className := resStatus_className el;
          resTime_textContent := resTime_textContent el;
          resSize_textContent := resSize_textContent el;
          rawResponseDisplay := rawResponseDisplay el;
          rawResponseDisplay_style_display := rawResponseDisplay_style_display el;
          rawResponseDisplay_style_visibility := rawResponseDisplay_style_visibility el;
          diffToggle_style_display := diffToggle_style_display el;
          showDiffCheckbox := showDiffCheckbox el |})
    Demo.start.

(** A network that answers with a redirect, and the world after a send
    that timed out. *)
Definition found : Response :=
  {| status := 302; statusText := "Found"; duration := 7; size := 0;
     headers := [("location", "/login")]; body := "" |}.

Definition redirecting : Network := λ _ _, inr found.

Definition afterTimeout : World :=
  run (@handleSendRequest Demo.imports Demo.unreachable) Demo.start.

End Sample.

(** * Properties *)

(** Unfolds the operations of the monad and the modelled collaborators. *)
Ltac js_unfold :=
  unfold addToHistory, updateHistoryButtons, updateOOSPatterns, reclassifyAllRequests,
    record, console_log, console_error, tryCatch, outcome, gets, modify,
    mbind, mret, JS_bind, JS_ret.

(** ** Shortcut dispatch *)

Section ShortcutDispatch.

Implicit Types (e : KeyboardEvent) (s : Shortcut) (entries : list (string * Shortcut)).

(** The four tests of [matchesShortcut] as four equalities. *)
Lemma matchesShortcut_eqb e s :
  matchesShortcut e s =
    (code e =? key s) && Bool.eqb (ctrlKey e || metaKey e) (ctrl s)
    && Bool.eqb (shiftKey e) (shift s) && Bool.eqb (altKey e) (alt s).
Proof.
  unfold matchesShortcut.
  destruct (code e =? key s), (ctrl s), (shift s), (alt s),
    (ctrlKey e), (metaKey e), (shiftKey e), (altKey e); reflexivity.
Qed.

(** C5: a chord matches an event exactly when the key code is the chord's
    key and the ctrl-or-meta, shift and alt states of the event equal the
    chord's three flags; hence a pressed modifier the chord does not ask
    for prevents the match. *)
Theorem matchesShortcut_exact e s :
  (matchesShortcut e s = true ↔
     code e = key s ∧ (ctrlKey e || metaKey e) = ctrl s
     ∧ shiftKey e = shift s ∧ altKey e = alt s)
  ∧ ((ctrl s = false ∧ (ctrlKey e = true ∨ metaKey e = true))
     ∨ (shift s = false ∧ shiftKey e = true)
     ∨ (alt s = false ∧ altKey e = true) →
     matchesShortcut e s = false).
Proof.
  rewrite matchesShortcut_eqb. split.
  - rewrite !andb_true_iff, String.eqb_eq, !Bool.eqb_true_iff. tauto.
  - intros Hextra. apply not_true_iff_false.
    rewrite !andb_true_iff, !Bool.eqb_true_iff.
    intros [[[_ Hc] Hs] Ha].
    destruct Hextra as [[H0 [H1|H1]]|[[H0 H1]|[H0 H1]]]; try congruence.
    + rewrite H0, H1 in Hc. discriminate.
    + rewrite H0, H1, orb_true_r in Hc. discriminate.
Qed.

(** The spec's example: Ctrl+Space matches the chord Ctrl+Space, and
    Ctrl+Shift+Space does not. *)
Lemma matchesShortcut_exact_witness :
  matchesShortcut Demo.ctrlSpace Demo.chordCtrlSpace = true
  ∧ matchesShortcut Demo.ctrlShiftSpace Demo.chordCtrlSpace = false.
Proof.
  split.
  - apply (proj1 (matchesShortcut_exact Demo.ctrlSpace Demo.chordCtrlSpace)).
    repeat split; reflexivity.
  - apply (proj2 (matchesShortcut_exact Demo.ctrlShiftSpace Demo.chordCtrlSpace)).
    right; left. split; reflexivity.
Defined.

Lemma callAction_at_most_one (p : Property) : (callCount (callAction p) ≤ 1)%nat.
Proof. destruct p; cbn; lia. Qed.

(** Bindings that do not match are passed over. *)
Lemma dispatch_skip e pre entries :
  Forall (λ b, matchesShortcut e b.2 = false) pre →
  dispatch e (pre ++ entries) = dispatch e entries.
Proof.
  induction 1 as [|[actionId s] pre Hhead _ IH]; [reflexivity|].
  cbn in *. rewrite Hhead. exact IH.
Qed.

(** C6: the listener tests the bindings in iteration order and stops at
    the first one that matches: it looks up and calls the action of that
    binding only, whatever follows it (a later binding with the same chord
    included), it does nothing when no binding matches, and it never makes
    more than one call per event. *)
Theorem dispatch_first_match_only e :
  (∀ pre actionId s post,
     Forall (λ b, matchesShortcut e b.2 = false) pre →
     matchesShortcut e s = true →
     dispatch e (pre ++ (actionId, s) :: post)
     = PreventDefault :: callAction (SHORTCUT_ACTIONS actionId))
  ∧ (∀ entries,
       Forall (λ b, matchesShortcut e b.2 = false) entries → dispatch e entries = [])
  ∧ (∀ entries, (callCount (dispatch e entries) ≤ 1)%nat).
Proof.
  split; [|split].
  - intros pre actionId s post Hpre Hs.
    rewrite dispatch_skip by assumption. cbn. now rewrite Hs.
  - intros entries Hnone.
    rewrite <- (app_nil_r entries). now rewrite dispatch_skip.
  - induction entries as [|[actionId s] rest IH]; cbn; [lia|].
    destruct (matchesShortcut e s); [|exact IH].
    apply (callAction_at_most_one (SHORTCUT_ACTIONS actionId)).
Qed.

(** Two bindings with the same chord: Ctrl+Space runs the first, and only
    the first; with the spec's bindings it runs [sendRequest] and not
    [clearInput]. *)
Lemma dispatch_first_match_only_witness :
  dispatch Demo.ctrlSpace
    [("clearInput", Demo.chordCtrlL); ("toggleOOS", Demo.chordCtrlSpace);
     ("sendRequest", Demo.chordCtrlSpace)]
  = [PreventDefault; RunAction toggleOOS]
  ∧ dispatch Demo.ctrlSpace
      [("sendRequest", Demo.chordCtrlSpace); ("clearInput", Demo.chordCtrlL)]
    = [PreventDefault; RunAction sendRequest].
Proof.
  split.
  - apply (proj1 (dispatch_first_match_only Demo.ctrlSpace)
             [("clearInput", Demo.chordCtrlL)] "toggleOOS" Demo.chordCtrlSpace
             [("sendRequest", Demo.chordCtrlSpace)]).
    + repeat constructor.
    + reflexivity.
  - apply (proj1 (dispatch_first_match_only Demo.ctrlSpace)
             [] "sendRequest" Demo.chordCtrlSpace [("clearInput", Demo.chordCtrlL)]).
    + constructor.
    + reflexivity.
Defined.

(** An identifier that is neither registered nor a property of
    [Object.prototype] is passed over in silence. *)
Lemma dispatch_unknown_ignored e actionId s post :
  matchesShortcut e s = true →
  SHORTCUT_ACTIONS actionId = Undefined →
  dispatch e ((actionId, s) :: post) = [PreventDefault].
Proof. intros Hs Hundef. cbn. now rewrite Hs, Hundef. Qed.

(** C9: a binding whose identifier has no registered handler is not always
    ignored. [SHORTCUT_ACTIONS[actionId]] also finds the properties of
    [Object.prototype]: for the identifier [toString] the listener calls
    the inherited function, and for [__proto__] it calls an object, which
    throws a [TypeError]. *)
Theorem dispatch_inherited_name_not_ignored :
  dispatch Demo.ctrlSpace [("toString", Demo.chordCtrlSpace)]
  = [PreventDefault; CallBuiltin "toString"]
  ∧ dispatch Demo.ctrlSpace [("__proto__", Demo.chordCtrlSpace)]
    = [PreventDefault; ThrowTypeError].
Proof. split; reflexivity. Qed.

(** Without stored bindings, or with an empty map, the listener uses the
    default table and nothing else. *)
Lemma keydownListener_default (st : Settings) e :
  keyboardShortcuts st = None ∨ keyboardShortcuts st = Some [] →
  keydownListener st e = dispatch e DEFAULT_SHORTCUTS.
Proof. unfold keydownListener, activeShortcuts. now intros [-> | ->]. Qed.

(** With the default table, Ctrl+Space sends the request and Space alone
    does nothing. *)
Example keydownListener_ctrl_space :
  keydownListener initialSettings Demo.ctrlSpace = [PreventDefault; RunAction sendRequest]
  ∧ keydownListener initialSettings
      {| code := "Space"; ctrlKey := false; metaKey := false; shiftKey := false;
         altKey := false |}
    = [].
Proof. split; reflexivity. Qed.

End ShortcutDispatch.

(** ** Sending a request *)

Section SendRequest.

Context `{!Imports}.

Implicit Types (w : World) (executeRequest : Network) (rawResponse : string).

Lemma run_normal {A} (m : JS A) w (a : A) w' : m w = (Normal a, w') → run m w = w'.
Proof. unfold run. now intros ->. Qed.

Lemma append_nonempty (s t : string) : s ≠ "" → s +:+ t ≠ "".
Proof. destruct s; [congruence|discriminate]. Qed.

Lemma responseHead_nonempty (result : Response) : responseHead result ≠ "".
Proof.
  unfold responseHead.
  generalize (pretty (status result) +:+ " " +:+ statusText result +:+ nl).
  intros rest.
  assert (Hstart : "HTTP/1.1 " +:+ rest ≠ "") by discriminate.
  revert Hstart. generalize ("HTTP/1.1 " +:+ rest).
  induction (headers result) as [|[k v] hs IH]; intros acc Hacc; cbn; [exact Hacc|].
  apply IH. now apply append_nonempty.
Qed.

(** The raw response always has a status line, so it is a truthy string. *)
Lemma buildRawResponse_truthy (result : Response) :
  truthy (Some (buildRawResponse result)) = true.
Proof.
  cbn. apply negb_true_iff, String.eqb_neq.
  unfold buildRawResponse.
  destruct (JSON_reformat (body result));
    apply append_nonempty, append_nonempty, responseHead_nonempty.
Qed.

(** Runs [showResponse] through its three tests. *)
Ltac show_cases w :=
  unfold run, showResponse; js_unfold; cbn;
  destruct (truthy (regularRequestBaseline (state w))) eqn:Hset;
  destruct (showDiffCheckbox (elements w)) as [[|]|] eqn:Hbox;
  cbn; rewrite ?Hset, ?Hbox; cbn;
  repeat (case_bool_decide; cbn; rewrite ?Hset, ?Hbox; cbn);
  rewrite ?orb_true_r, ?andb_false_r; cbn;
  try congruence;
  repeat match goal with |- context [if ?c then _ else _] => destruct c; cbn end.

(** [showResponse] never throws. *)
Lemma showResponse_normal rawResponse w :
  showResponse rawResponse w = (Normal (), run (showResponse rawResponse) w).
Proof. show_cases w; reflexivity. Qed.

(** It stores the response as baseline when there is none, and leaves the
    rest of the session state alone. *)
Lemma showResponse_state rawResponse w :
  state (run (showResponse rawResponse) w)
  = if truthy (regularRequestBaseline (state w)) then state w
    else set_regularRequestBaseline (Some rawResponse) (state w).
Proof. show_cases w; reflexivity. Qed.

(** What it puts on display. *)
Lemma showResponse_display rawResponse w :
  rawResponseDisplay (elements (run (showResponse rawResponse) w))
  = InnerHTML
      (if truthy (regularRequestBaseline (state w))
          && present (showDiffCheckbox (elements w))
          && default false (showDiffCheckbox (elements w))
          && negb (bool_decide (regularRequestBaseline (state w) = Some rawResponse))
       then renderDiff (default "" (regularRequestBaseline (state w))) rawResponse
       else highlightHTTP rawResponse).
Proof. show_cases w; reflexivity. Qed.

(** It touches nothing but the session state and the elements. *)
Lemma showResponse_frame rawResponse w :
  let w' := run (showResponse rawResponse) w in
  store w' = store w ∧ classifier w' = classifier w ∧ settings w' = settings w
  ∧ console w' = console w ∧ calls w' = calls w
  ∧ showDiffCheckbox (elements w') = showDiffCheckbox (elements w)
  ∧ rawRequestInput_innerText (elements w') = rawRequestInput_innerText (elements w)
  ∧ useHttpsCheckbox_checked (elements w') = useHttpsCheckbox_checked (elements w).
Proof. show_cases w; rewrite ?Hbox; repeat split; reflexivity. Qed.

(** The world in which the response text is shown: the one a send has
    reached when the promise of [executeRequest] is fulfilled and the
    status, time and size are written. *)
Lemma handleSendRequest_fulfilled executeRequest w parsed result :
  parseRequest (rawRequestInput_innerText (elements w))
               (useHttpsCheckbox_checked (elements w)) = inr parsed →
  executeRequest (url parsed) (options parsed) = inr result →
  ∃ w1,
    handleSendRequest executeRequest w
    = (Normal (),
       with_elements (set_rawResponseDisplay_style "block" "visible")
         (run (showResponse (buildRawResponse result)) w1))
    ∧ regularRequestBaseline (state w1) = regularRequestBaseline (state w)
    ∧ currentResponse (state w1) = Some (buildRawResponse result)
    ∧ showDiffCheckbox (elements w1) = showDiffCheckbox (elements w)
    ∧ requestHistory (state w1)
      = (requestHistory (state w)
         ++ [(rawRequestInput_innerText (elements w),
              useHttpsCheckbox_checked (elements w))])%list
    ∧ calls w1
      = (calls w
         ++ [CallAddToHistory (rawRequestInput_innerText (elements w))
                              (useHttpsCheckbox_checked (elements w));
             CallUpdateHistoryButtons;
             CallParseRequest (rawRequestInput_innerText (elements w))
                              (useHttpsCheckbox_checked (elements w));
             CallExecuteRequest (url parsed) (options parsed)])%list
    ∧ rawRequestInput_innerText (elements w1) = rawRequestInput_innerText (elements w)
    ∧ useHttpsCheckbox_checked (elements w1) = useHttpsCheckbox_checked (elements w).
Proof.
  intros Hparse Hsent. eexists. split.
  - unfold handleSendRequest, sendAndShow. js_unfold. cbn.
    rewrite Hparse. cbn. rewrite Hsent. cbn.
    rewrite showResponse_normal. reflexivity.
  - cbn. rewrite <- !app_assoc. repeat split; reflexivity.
Qed.

(** A send whose [try] block throws, in [parseRequest] or because the
    promise of [executeRequest] is rejected, ends in the [catch] block. *)
Lemma handleSendRequest_thrown executeRequest w err :
  match parseRequest (rawRequestInput_innerText (elements w))
                     (useHttpsCheckbox_checked (elements w)) with
  | inl err' => err' = err
  | inr parsed => executeRequest (url parsed) (options parsed) = inl err
  end →
  ∃ w1,
    handleSendRequest executeRequest w = (Normal (), run (showFailure err) w1)
    ∧ state w1
      = set_requestHistory
          (requestHistory (state w)
           ++ [(rawRequestInput_innerText (elements w),
                useHttpsCheckbox_checked (elements w))])%list (state w)
    ∧ store w1 = store w ∧ classifier w1 = classifier w ∧ settings w1 = settings w
    ∧ calls w1
      = (calls w
         ++ CallAddToHistory (rawRequestInput_innerText (elements w))
                             (useHttpsCheckbox_checked (elements w))
            :: CallUpdateHistoryButtons
            :: CallParseRequest (rawRequestInput_innerText (elements w))
                                (useHttpsCheckbox_checked (elements w))
            :: match parseRequest (rawRequestInput_innerText (elements w))
                                  (useHttpsCheckbox_checked (elements w)) with
               | inl _ => []
               | inr parsed => [CallExecuteRequest (url parsed) (options parsed)]
               end)%list
    ∧ rawRequestInput_innerText (elements w1) = rawRequestInput_innerText (elements w)
    ∧ useHttpsCheckbox_checked (elements w1) = useHttpsCheckbox_checked (elements w)
    ∧ showDiffCheckbox (elements w1) = showDiffCheckbox (elements w).
Proof.
  unfold handleSendRequest, sendAndShow. js_unfold. cbn.
  destruct (parseRequest _ _) as [err'|parsed]; cbn.
  - intros ->. eexists. split; [reflexivity|].
    cbn. rewrite <- !app_assoc. repeat split; reflexivity.
  - intros ->. cbn. eexists. split; [reflexivity|].
    cbn. rewrite <- !app_assoc. repeat split; reflexivity.
Qed.

(** A send reads the request text and the two checkboxes and writes none
    of them, however it ends. *)
Lemma handleSendRequest_inputs executeRequest w :
  let w' := run (handleSendRequest executeRequest) w in
  rawRequestInput_innerText (elements w') = rawRequestInput_innerText (elements w)
  ∧ useHttpsCheckbox_checked (elements w') = useHttpsCheckbox_checked (elements w)
  ∧ showDiffCheckbox (elements w') = showDiffCheckbox (elements w).
Proof.
  intros w'.
  assert (Hcases :
    (∃ parsed result,
       parseRequest (rawRequestInput_innerText (elements w))
                    (useHttpsCheckbox_checked (elements w)) = inr parsed
       ∧ executeRequest (url parsed) (options parsed) = inr result)
    ∨ ∃ err,
        match parseRequest (rawRequestInput_innerText (elements w))
                           (useHttpsCheckbox_checked (elements w)) with
        | inl err' => err' = err
        | inr parsed => executeRequest (url parsed) (options parsed) = inl err
        end).
  { destruct (parseRequest _ _) as [err|parsed]; [right; by exists err|].
    destruct (executeRequest (url parsed) (options parsed)) as [err|result] eqn:Hsent.
    - right. by exists err.
    - left. by exists parsed, result. }
  destruct Hcases as [(parsed & result & Hparse & Hsent)|[err Hthrown]].
  - destruct (handleSendRequest_fulfilled _ _ _ _ Hparse Hsent)
      as (w1 & Hrun & _ & _ & Hbox & _ & _ & Htext & Hhttps).
    subst w'. rewrite (run_normal _ _ _ _ Hrun).
    cbn [elements with_elements set_rawResponseDisplay_style
         rawRequestInput_innerText useHttpsCheckbox_checked showDiffCheckbox].
    destruct (showResponse_frame (buildRawResponse result) w1)
      as (_ & _ & _ & _ & _ & -> & -> & ->).
    auto.
  - destruct (handleSendRequest_thrown executeRequest w err Hthrown)
      as (w1 & Hrun & _ & _ & _ & _ & _ & Htext & Hhttps & Hbox).
    subst w'. rewrite (run_normal _ _ _ _ Hrun).
    unfold run, showFailure. js_unfold.
    cbn [snd elements with_elements with_console set_rawResponseDisplay_style
         set_rawResponseDisplay set_resStatus set_resTime
         rawRequestInput_innerText useHttpsCheckbox_checked showDiffCheckbox].
    auto.
Qed.

(** The session state and the display after a send that is answered. *)
Lemma send_fulfilled executeRequest w parsed result :
  parseRequest (rawRequestInput_innerText (elements w))
               (useHttpsCheckbox_checked (elements w)) = inr parsed →
  executeRequest (url parsed) (options parsed) = inr result →
  let w' := run (handleSendRequest executeRequest) w in
  let rawResponse := buildRawResponse result in
  let baseline := regularRequestBaseline (state w) in
  currentResponse (state w') = Some rawResponse
  ∧ regularRequestBaseline (state w') = (if truthy baseline then baseline else Some rawResponse)
  ∧ rawResponseDisplay (elements w')
    = InnerHTML
        (if truthy baseline
            && present (showDiffCheckbox (elements w))
            && default false (showDiffCheckbox (elements w))
            && negb (bool_decide (baseline = Some rawResponse))
         then renderDiff (default "" baseline) rawResponse
         else highlightHTTP rawResponse).
Proof.
  intros Hparse Hsent w' rawResponse baseline.
  destruct (handleSendRequest_fulfilled _ _ _ _ Hparse Hsent)
    as (w1 & Hrun & Hbase & Hcurrent & Hbox & _).
  subst w' rawResponse baseline. rewrite (run_normal _ _ _ _ Hrun).
  cbn [state elements with_elements rawResponseDisplay set_rawResponseDisplay_style].
  rewrite showResponse_state, showResponse_display, Hbase, Hbox.
  destruct (truthy (regularRequestBaseline (state w))); cbn; auto.
Qed.

(** The spec's scenario: three sends in a row, each answered, starting
    without a baseline and with the show-diff checkbox checked. The first
    response becomes the baseline and is shown highlighted; the second and
    the third leave the baseline alone and, when their text differs from
    it, are shown as a diff against it. *)
Lemma three_responses (net1 net2 net3 : Network) w parsed r1 r2 r3 :
  truthy (regularRequestBaseline (state w)) = false →
  showDiffCheckbox (elements w) = Some true →
  parseRequest (rawRequestInput_innerText (elements w))
               (useHttpsCheckbox_checked (elements w)) = inr parsed →
  net1 (url parsed) (options parsed) = inr r1 →
  net2 (url parsed) (options parsed) = inr r2 →
  net3 (url parsed) (options parsed) = inr r3 →
  let w1 := run (handleSendRequest net1) w in
  let w2 := run (handleSendRequest net2) w1 in
  let w3 := run (handleSendRequest net3) w2 in
  let R1 := buildRawResponse r1 in
  let R2 := buildRawResponse r2 in
  let R3 := buildRawResponse r3 in
  (regularRequestBaseline (state w1) = Some R1
   ∧ rawResponseDisplay (elements w1) = InnerHTML (highlightHTTP R1))
  ∧ (regularRequestBaseline (state w2) = Some R1
     ∧ currentResponse (state w2) = Some R2
     ∧ (R2 ≠ R1 → rawResponseDisplay (elements w2) = InnerHTML (renderDiff R1 R2)))
  ∧ (regularRequestBaseline (state w3) = Some R1
     ∧ currentResponse (state w3) = Some R3
     ∧ (R3 ≠ R1 → rawResponseDisplay (elements w3) = InnerHTML (renderDiff R1 R3))).
Proof.
  intros Hempty Hbox Hparse Hnet1 Hnet2 Hnet3 w1 w2 w3 R1 R2 R3.
  destruct (handleSendRequest_inputs net1 w) as (Htext1 & Hhttps1 & Hbox1).
  destruct (handleSendRequest_inputs net2 w1) as (Htext2 & Hhttps2 & Hbox2).
  fold w1 in Htext1, Hhttps1, Hbox1, Htext2, Hhttps2, Hbox2.
  fold w2 in Htext2, Hhttps2, Hbox2.
  assert (Hparse1 : parseRequest (rawRequestInput_innerText (elements w1))
                                 (useHttpsCheckbox_checked (elements w1)) = inr parsed)
    by now rewrite Htext1, Hhttps1.
  assert (Hparse2 : parseRequest (rawRequestInput_innerText (elements w2))
                                 (useHttpsCheckbox_checked (elements w2)) = inr parsed)
    by now rewrite Htext2, Hhttps2, Htext1, Hhttps1.
  destruct (send_fulfilled net1 w parsed r1 Hparse Hnet1) as (_ & Hbase1 & Hshown1).
  destruct (send_fulfilled net2 w1 parsed r2 Hparse1 Hnet2) as (Hcur2 & Hbase2 & Hshown2).
  destruct (send_fulfilled net3 w2 parsed r3 Hparse2 Hnet3) as (Hcur3 & Hbase3 & Hshown3).
  fold w1 in Hbase1, Hshown1. fold w2 in Hbase2, Hshown2, Hcur2.
  fold w3 in Hbase3, Hshown3, Hcur3. fold R1 in Hbase1, Hshown1.
  fold R2 in Hbase2, Hshown2, Hcur2. fold R3 in Hbase3, Hshown3, Hcur3.
  rewrite Hempty in Hbase1, Hshown1. cbn [andb] in Hshown1.
  pose proof (buildRawResponse_truthy r1) as Htruthy. fold R1 in Htruthy.
  rewrite Hbase1, Htruthy in Hbase2. rewrite Hbase1, Htruthy, Hbox1, Hbox in Hshown2.
  rewrite Hbase2, Htruthy in Hbase3. rewrite Hbase2, Htruthy, Hbox2, Hbox1, Hbox in Hshown3.
  cbn [present default andb] in Hshown2, Hshown3.
  repeat split; try assumption.
  - intros Hne. rewrite Hshown2, bool_decide_eq_false_2; [reflexivity|congruence].
  - intros Hne. rewrite Hshown3, bool_decide_eq_false_2; [reflexivity|congruence].
Qed.

(** C2: the baseline follows the two-state protocol. A successful response
    arriving while there is no baseline is stored, as it is, as the
    baseline; one arriving while there is a baseline leaves the baseline
    unchanged; in both cases the response becomes [currentResponse], and
    afterwards the baseline is set. *)
Theorem baseline_protocol executeRequest w parsed result :
  parseRequest (rawRequestInput_innerText (elements w))
               (useHttpsCheckbox_checked (elements w)) = inr parsed →
  executeRequest (url parsed) (options parsed) = inr result →
  let w' := run (handleSendRequest executeRequest) w in
  let rawResponse := buildRawResponse result in
  currentResponse (state w') = Some rawResponse
  ∧ (truthy (regularRequestBaseline (state w)) = false →
     regularRequestBaseline (state w') = Some rawResponse)
  ∧ (truthy (regularRequestBaseline (state w)) = true →
     regularRequestBaseline (state w') = regularRequestBaseline (state w))
  ∧ truthy (regularRequestBaseline (state w')) = true.
Proof.
  intros Hparse Hsent w' rawResponse.
  destruct (handleSendRequest_fulfilled _ _ _ _ Hparse Hsent)
    as (w1 & Hrun & Hbase & Hcurrent & _).
  subst w'. rewrite (run_normal _ _ _ _ Hrun). cbn [state with_elements].
  rewrite showResponse_state, Hbase.
  pose proof (buildRawResponse_truthy result) as Hraw.
  destruct (truthy (regularRequestBaseline (state w))) eqn:Hset; cbn.
  - rewrite Hbase. repeat split; try done.
  - repeat split; try done.
Qed.

(** C3, amended: for a successful response arriving while the baseline is
    set, the display shows [renderDiff(baseline, currentResponse)] when the
    show-diff checkbox is there and checked and the response text differs
    from the baseline, and [highlightHTTP(currentResponse)] when the
    checkbox is missing or unchecked or the response text is the baseline
    itself; the baseline stays what it was. *)
Theorem displayed_body_when_baseline_set executeRequest w parsed result :
  parseRequest (rawRequestInput_innerText (elements w))
               (useHttpsCheckbox_checked (elements w)) = inr parsed →
  executeRequest (url parsed) (options parsed) = inr result →
  truthy (regularRequestBaseline (state w)) = true →
  let w' := run (handleSendRequest executeRequest) w in
  let rawResponse := buildRawResponse result in
  let baseline := default "" (regularRequestBaseline (state w)) in
  regularRequestBaseline (state w') = Some baseline
  ∧ currentResponse (state w') = Some rawResponse
  ∧ rawResponseDisplay (elements w')
    = InnerHTML
        (if showDiffCheckbox (elements w) is Some true then
           if bool_decide (baseline = rawResponse) then highlightHTTP rawResponse
           else renderDiff baseline rawResponse
         else highlightHTTP rawResponse).
Proof.
  intros Hparse Hsent Hset w' rawResponse baseline.
  destruct (handleSendRequest_fulfilled _ _ _ _ Hparse Hsent)
    as (w1 & Hrun & Hbase & Hcurrent & Hbox & _).
  subst w'. rewrite (run_normal _ _ _ _ Hrun).
  cbn [state elements with_elements rawResponseDisplay set_rawResponseDisplay_style].
  rewrite showResponse_state, showResponse_display, Hbase, Hbox, Hset.
  subst baseline rawResponse.
  destruct (regularRequestBaseline (state w)) as [b|] eqn:Hb; [|discriminate].
  cbn [default]. split; [|split].
  - now rewrite Hbase.
  - exact Hcurrent.
  - f_equal. destruct (showDiffCheckbox (elements w)) as [[|]|]; cbn; try reflexivity.
    repeat case_bool_decide; try reflexivity; congruence.
Qed.

(** C7: when the promise of [executeRequest] is rejected, the handler
    catches the error and ends normally; the status badge reads [Error]
    with the error class, the time reads [0ms], the response area shows
    the error message and the stack as text, and the baseline, the current
    response, the settings and the classifier's pattern lists are what they
    were before the call. *)
Theorem network_failure_is_reported executeRequest w parsed err :
  parseRequest (rawRequestInput_innerText (elements w))
               (useHttpsCheckbox_checked (elements w)) = inr parsed →
  executeRequest (url parsed) (options parsed) = inl err →
  let w' := run (handleSendRequest executeRequest) w in
  (handleSendRequest executeRequest w).1 = Normal ()
  ∧ resStatus_textContent (elements w') = "Error"
  ∧ resStatus_className (elements w') = "status-badge status-5xx"
  ∧ resTime_textContent (elements w') = "0ms"
  ∧ rawResponseDisplay (elements w')
    = TextContent ("Error: " +:+ message err +:+ nl +:+ nl +:+ "Stack: " +:+ stack err)
  ∧ rawResponseDisplay_style_display (elements w') = "block"
  ∧ regularRequestBaseline (state w') = regularRequestBaseline (state w)
  ∧ currentResponse (state w') = currentResponse (state w)
  ∧ settings w' = settings w
  ∧ classifier w' = classifier w.
Proof.
  intros Hparse Hsent w'.
  destruct (handleSendRequest_thrown executeRequest w err)
    as (w1 & Hrun & Hstate & _ & Hclassifier & Hsettings & _).
  { now rewrite Hparse. }
  subst w'. rewrite (run_normal _ _ _ _ Hrun), Hrun.
  unfold run, showFailure. js_unfold. cbn.
  rewrite Hstate, Hsettings, Hclassifier. repeat split; reflexivity.
Qed.

(** C8: every send appends the raw request text and the https flag to the
    request history, as the first thing it does: the call to
    [addToHistory] comes before the calls to [parseRequest] and
    [executeRequest], and the entry is in the history whether the request
    fails to parse, the network call is rejected or it succeeds. *)
Theorem history_appended_before_network executeRequest w :
  let rawContent := rawRequestInput_innerText (elements w) in
  let useHttps := useHttpsCheckbox_checked (elements w) in
  let w' := run (handleSendRequest executeRequest) w in
  requestHistory (state w') = (requestHistory (state w) ++ [(rawContent, useHttps)])%list
  ∧ calls w'
    = (calls w
       ++ CallAddToHistory rawContent useHttps
          :: CallUpdateHistoryButtons
          :: CallParseRequest rawContent useHttps
          :: match parseRequest rawContent useHttps with
             | inl _ => []
             | inr parsed => [CallExecuteRequest (url parsed) (options parsed)]
             end)%list.
Proof.
  intros rawContent useHttps w'.
  destruct (parseRequest rawContent useHttps) as [err|parsed] eqn:Hparse;
    [|destruct (executeRequest (url parsed) (options parsed)) as [err|result] eqn:Hsent].
  - destruct (handleSendRequest_thrown executeRequest w err)
      as (w1 & Hrun & Hstate & _ & _ & _ & Hcalls & _).
    { fold rawContent useHttps. now rewrite Hparse. }
    fold rawContent useHttps in Hstate, Hcalls. rewrite Hparse in Hcalls.
    subst w'. rewrite (run_normal _ _ _ _ Hrun).
    unfold run, showFailure. js_unfold. cbn. rewrite Hstate, Hcalls. split; reflexivity.
  - destruct (handleSendRequest_thrown executeRequest w err)
      as (w1 & Hrun & Hstate & _ & _ & _ & Hcalls & _).
    { fold rawContent useHttps. now rewrite Hparse. }
    fold rawContent useHttps in Hstate, Hcalls. rewrite Hparse in Hcalls.
    subst w'. rewrite (run_normal _ _ _ _ Hrun).
    unfold run, showFailure. js_unfold. cbn. rewrite Hstate, Hcalls. split; reflexivity.
  - destruct (handleSendRequest_fulfilled _ _ _ _ Hparse Hsent)
      as (w1 & Hrun & _ & _ & _ & Hhistory & Hcalls & _).
    fold rawContent useHttps in Hhistory, Hcalls.
    subst w'. rewrite (run_normal _ _ _ _ Hrun). cbn [state calls with_elements].
    rewrite showResponse_state.
    destruct (showResponse_frame (buildRawResponse result) w1) as (_ & _ & _ & _ & -> & _).
    split; [|exact Hcalls].
    destruct (truthy (regularRequestBaseline (state w1))); exact Hhistory.
Qed.
End SendRequest.

(** The first response becomes the baseline and the second one leaves it. *)
Lemma baseline_protocol_witness :
  regularRequestBaseline (state Demo.afterHello) = Some (Demo.raw "hello")
  ∧ regularRequestBaseline (state Demo.afterWorld) = Some (Demo.raw "hello")
  ∧ currentResponse (state Demo.afterWorld) = Some (Demo.raw "world").
Proof.
  pose proof (@baseline_protocol Demo.imports (Demo.answering "hello") Demo.start
                _ _ eq_refl eq_refl) as (_ & Hempty & _).
  pose proof (@baseline_protocol Demo.imports (Demo.answering "world") Demo.afterHello
                _ _ eq_refl eq_refl) as (Hcurrent & _ & Hset & _).
  split; [exact (Hempty eq_refl)|].
  split; [|exact Hcurrent].
  exact (eq_trans (Hset eq_refl) (Hempty eq_refl)).
Defined.

(** With the checkbox checked, the second response is shown as a diff
    against the first. *)
Lemma displayed_body_when_baseline_set_witness :
  rawResponseDisplay (elements Demo.afterWorld)
  = InnerHTML (@renderDiff Demo.imports (Demo.raw "hello") (Demo.raw "world")).
Proof.
  exact (proj2 (proj2 (@displayed_body_when_baseline_set Demo.imports
           (Demo.answering "world") Demo.afterHello _ _ eq_refl eq_refl eq_refl))).
Defined.

(** C3 as stated fails: with the baseline set and the checkbox checked, a
    response whose text is the baseline itself is shown highlighted, not
    as a diff. *)
Lemma identical_response_is_not_diffed :
  truthy (regularRequestBaseline (state Demo.afterHello)) = true
  ∧ showDiffCheckbox (elements Demo.afterHello) = Some true
  ∧ regularRequestBaseline (state Demo.afterHello) = Some (Demo.raw "hello")
  ∧ currentResponse
      (state (run (@handleSendRequest Demo.imports (Demo.answering "hello"))
                  Demo.afterHello))
    = Some (Demo.raw "hello")
  ∧ rawResponseDisplay
      (elements (run (@handleSendRequest Demo.imports (Demo.answering "hello"))
                     Demo.afterHello))
    = InnerHTML (@highlightHTTP Demo.imports (Demo.raw "hello"))
  ∧ rawResponseDisplay
      (elements (run (@handleSendRequest Demo.imports (Demo.answering "hello"))
                     Demo.afterHello))
    ≠ InnerHTML (@renderDiff Demo.imports (Demo.raw "hello") (Demo.raw "hello")).
Proof. repeat split; try reflexivity. vm_compute. discriminate. Qed.

(** The spec's scenario: the request times out after a first response. *)
Lemma network_failure_is_reported_witness :
  resStatus_textContent
    (elements (run (@handleSendRequest Demo.imports Demo.unreachable) Demo.afterHello))
  = "Error"
  ∧ resTime_textContent
      (elements (run (@handleSendRequest Demo.imports Demo.unreachable) Demo.afterHello))
    = "0ms"
  ∧ rawResponseDisplay
      (elements (run (@handleSendRequest Demo.imports Demo.unreachable) Demo.afterHello))
    = TextContent ("Error: timeout" +:+ nl +:+ nl +:+ "Stack: Error: timeout")
  ∧ regularRequestBaseline
      (state (run (@handleSendRequest Demo.imports Demo.unreachable) Demo.afterHello))
    = Some (Demo.raw "hello").
Proof.
  pose proof (@network_failure_is_reported Demo.imports Demo.unreachable Demo.afterHello
                _ Demo.timeout eq_refl eq_refl)
    as (_ & Hstatus & _ & Htime & Hshown & _ & Hbaseline & _).
  exact (conj Hstatus (conj Htime (conj Hshown Hbaseline))).
Defined.

(** ** Reclassification and settings loading *)

Section Settings.

Context `{!Imports}.

Implicit Types (w : World) (c : Classifier) (h : gmap objref CapturedRequest)
  (r : objref) (rs : list objref).

Lemma reclassify_twice c (request : CapturedRequest) :
  reclassify c (reclassify c request) = reclassify c request.
Proof. reflexivity. Qed.

(** After the loop, the requests of the array carry their new flag and
    every other object is as it was. *)
Lemma reclassify_lookup c rs h r :
  foldl (reclassifyOne c) h rs !! r
  = if bool_decide (r ∈ rs) then reclassify c <$> h !! r else h !! r.
Proof.
  revert h. induction rs as [|x rs IH]; intros h; [reflexivity|].
  cbn [foldl]. rewrite IH. unfold reclassifyOne at 1 2. rewrite lookup_alter.
  destruct (decide (x = r)) as [->|Hne].
  - rewrite (bool_decide_eq_true_2 (r ∈ r :: rs)) by left.
    case_bool_decide; [|reflexivity].
    destruct (h !! r); [|reflexivity]. cbn. now rewrite reclassify_twice.
  - case_bool_decide as Hin.
    + rewrite bool_decide_eq_true_2 by now right. reflexivity.
    + rewrite bool_decide_eq_false_2; [reflexivity|].
      intros [->|?]%elem_of_cons; congruence.
Qed.

(** C4: [reclassifyAllRequests] is idempotent and keeps the collection as
    it is: running it a second time changes nothing, the array
    [state.requests] holds the same references in the same order, every
    request keeps its URL, each request of the array gets the flag the
    classifier gives its URL, and objects outside the array are untouched. *)
Theorem reclassifyAllRequests_idempotent w :
  let w1 := run reclassifyAllRequests w in
  run reclassifyAllRequests w1 = w1
  ∧ requests (state w1) = requests (state w)
  ∧ (∀ r, request_url <$> store w1 !! r = request_url <$> store w !! r)
  ∧ (∀ r request,
       r ∈ requests (state w) → store w !! r = Some request →
       isOOS <$> store w1 !! r
       = Some (isOutOfScope (classifier w) (request_url request)))
  ∧ (∀ r, r ∉ requests (state w) → store w1 !! r = store w !! r).
Proof.
  intros w1. subst w1. unfold run, reclassifyAllRequests, modify. cbn.
  split; [|split; [reflexivity|split; [|split]]].
  - unfold with_store. cbn. f_equal. apply map_eq. intros r.
    rewrite !reclassify_lookup.
    case_bool_decide; [|reflexivity]. now destruct (store w !! r).
  - intros r. rewrite reclassify_lookup.
    case_bool_decide; [|reflexivity]. now destruct (store w !! r).
  - intros r request Hin Hr. rewrite reclassify_lookup, Hr.
    now rewrite bool_decide_eq_true_2.
  - intros r Hout. rewrite reclassify_lookup. now rewrite bool_decide_eq_false_2.
Qed.

Lemma noPatterns_false (v : option (list string)) :
  noPatterns v = false → ∃ patterns, v = Some patterns ∧ patterns ≠ [].
Proof. destruct v as [[|p ps]|]; try discriminate. intros _. by eexists. Qed.

Lemma DEFAULT_OOS_PATTERNS_nonempty : DEFAULT_OOS_PATTERNS ≠ [].
Proof. discriminate. Qed.

(** Reading the stored settings changes the settings only. *)
Lemma readStored_frame w w0 :
  readStored w = (Normal (), w0) →
  state w0 = state w ∧ store w0 = store w ∧ classifier w0 = classifier w
  ∧ calls w0 = calls w ∧ console w0 = console w.
Proof.
  unfold readStored. js_unfold. cbn.
  destruct (truthy (localStorage_rep_settings w)); cbn.
  - destruct (JSON_parse _); cbn; [discriminate|].
    intros [= <-]. repeat split; reflexivity.
  - intros [= <-]. repeat split; reflexivity.
Qed.

(** What the settings hold once the stored ones are read. *)
Lemma readStored_oosPatterns w w0 :
  readStored w = (Normal (), w0) →
  oosPatterns (settings w0)
  = if truthy (localStorage_rep_settings w) then
      match JSON_parse (default "" (localStorage_rep_settings w)) with
      | inr parsed => default (oosPatterns (settings w)) (stored_oosPatterns parsed)
      | inl _ => oosPatterns (settings w)
      end
    else oosPatterns (settings w).
Proof.
  unfold readStored. js_unfold. cbn.
  destruct (truthy (localStorage_rep_settings w)); cbn.
  - destruct (JSON_parse _); cbn; [discriminate|]. now intros [= <-].
  - now intros [= <-].
Qed.

(** C10, amended: when [loadSettings] gets through its [try] block, that
    is when the stored settings are read without an error and the
    permission check is answered, the OOS pattern list is not empty
    afterwards: a list that is missing or empty once the stored settings
    are read is replaced by a copy of the defaults, another list is kept,
    and that list is what the classifier is given before the requests are
    reclassified under it. *)
Theorem loadSettings_fills_in_defaults checkCorsPermission w w0 hasPermission :
  readStored w = (Normal (), w0) →
  checkCorsPermission = inr hasPermission →
  let w' := run (loadSettings checkCorsPermission) w in
  let patterns :=
    if noPatterns (oosPatterns (settings w0)) then DEFAULT_OOS_PATTERNS
    else default [] (oosPatterns (settings w0)) in
  patterns ≠ []
  ∧ oosPatterns (settings w') = Some patterns
  ∧ classifier_oos (classifier w') = patterns
  ∧ calls w' = (calls w ++ [CallCheckCorsPermission; CallUpdateOOSPatterns patterns])%list
  ∧ store w' = foldl (reclassifyOne (classifier w')) (store w) (requests (state w)).
Proof.
  intros Hread -> w' patterns.
  destruct (readStored_frame w w0 Hread) as (Hstate & Hstore & Hclassifier & Hcalls & _).
  subst w' patterns. unfold run, loadSettings, loadStored. js_unfold. cbn.
  rewrite Hread. cbn.
  destruct (noPatterns (oosPatterns (settings w0))) eqn:Hnone; cbn.
  - rewrite Hstate, Hstore, Hcalls, <- app_assoc. cbn.
    split; [exact DEFAULT_OOS_PATTERNS_nonempty|]. repeat split; reflexivity.
  - destruct (noPatterns_false _ Hnone) as (patterns & Hsome & Hne).
    rewrite Hsome, Hstate, Hstore, Hcalls, <- app_assoc. cbn.
    split; [exact Hne|].
    split; [congruence|]. repeat split; reflexivity.
Qed.
End Settings.

(** At start-up, with nothing stored, the defaults are installed. *)
Lemma loadSettings_fills_in_defaults_witness :
  oosPatterns (settings (run (@loadSettings Demo.imports (inr true)) Demo.start))
  = Some DEFAULT_OOS_PATTERNS
  ∧ classifier_oos (classifier (run (@loadSettings Demo.imports (inr true)) Demo.start))
    = DEFAULT_OOS_PATTERNS.
Proof.
  pose proof (@loadSettings_fills_in_defaults Demo.imports (inr true) Demo.start
                Demo.start true eq_refl eq_refl) as (_ & Hsettings & Hclassifier & _).
  exact (conj Hsettings Hclassifier).
Defined.

(** C10 as stated fails: [loadSettings] also completes through its [catch]
    block, and then nothing is filled in. At start-up with nothing stored
    and a permission check that is rejected, or with stored settings that
    do not parse, it ends normally, the OOS list of the settings is still
    empty and the classifier has not been given any list. *)
Lemma loadSettings_failure_leaves_oos_empty :
  (localStorage_rep_settings Demo.start = None
   ∧ oosPatterns (settings Demo.start) = Some []
   ∧ (@loadSettings Demo.imports (inl Demo.noPermissions) Demo.start).1 = Normal ()
   ∧ oosPatterns
       (settings (run (@loadSettings Demo.imports (inl Demo.noPermissions)) Demo.start))
     = Some []
   ∧ calls (run (@loadSettings Demo.imports (inl Demo.noPermissions)) Demo.start)
     = [CallCheckCorsPermission])
  ∧ ((@loadSettings Demo.imports (inr true) Demo.corrupted).1 = Normal ()
     ∧ oosPatterns
         (settings (run (@loadSettings Demo.imports (inr true)) Demo.corrupted))
       = Some []
     ∧ calls (run (@loadSettings Demo.imports (inr true)) Demo.corrupted) = []).
Proof. repeat split; reflexivity. Qed.

(** ** Scope classification *)

Section Classifier.

Context `{!Engine}.

Implicit Types (u path pattern : string) (oos inScope patterns : list string).

(** [matches] is true exactly when one pattern of the list matches. *)
Lemma matches_true path patterns :
  matches path patterns = true
  ↔ ∃ pattern, pattern ∈ patterns ∧ patternMatches path pattern = true.
Proof.
  unfold matches. rewrite existsb_exists.
  split; intros (pattern & Hin & Hmatch); exists pattern;
    (split; [now apply list_elem_of_In|exact Hmatch]).
Qed.

(** A pattern that does not compile matches nothing. *)
Lemma patternMatches_invalid path pattern :
  RegExp pattern = None → patternMatches path pattern = false.
Proof. unfold patternMatches. now intros ->. Qed.

(** A URL that does not parse is not out of scope. *)
Lemma classify_malformed u oos inScope :
  pathAndQuery u = None → classify u oos inScope = false.
Proof. unfold classify. now intros ->. Qed.

(** Without a matching in-scope pattern, the OOS patterns decide. *)
Lemma classify_not_in_scope u path oos inScope :
  pathAndQuery u = Some path → matches path inScope = false →
  classify u oos inScope = matches path oos.
Proof. unfold classify. now intros -> ->. Qed.

(** C1: a URL whose path and query match at least one in-scope pattern is
    never classified out of scope, whatever the OOS patterns are. *)
Theorem in_scope_overrides_oos u path oos inScope :
  pathAndQuery u = Some path →
  (∃ pattern, pattern ∈ inScope ∧ patternMatches path pattern = true) →
  classify u oos inScope = false.
Proof.
  intros Hpath Hmatch. apply matches_true in Hmatch.
  unfold classify. now rewrite Hpath, Hmatch.
Qed.

End Classifier.

(** A URL under [/api/] stays in scope although an OOS pattern matches it. *)
Lemma in_scope_overrides_oos_witness :
  @classify Demo.engine "https://example.com/api/_next/chunk.js" ["/_next/"] ["^/api/"]
  = false
  ∧ @classify Demo.engine "https://example.com/api/_next/chunk.js" ["/_next/"] [] = true.
Proof.
  split; [|reflexivity].
  apply (@in_scope_overrides_oos Demo.engine _ "/api/_next/chunk.js").
  - reflexivity.
  - exists "^/api/". split; [by left|reflexivity].
Defined.

(** ** The shortcut settings *)

Section ShortcutSettings.

Implicit Types (e : KeyboardEvent) (s t : Shortcut) (st : Settings)
  (entries : list (string * Shortcut)) (actionId : string).

Lemma sameChord_true s t :
  sameChord s t = true
  ↔ key s = key t ∧ ctrl s = ctrl t ∧ shift s = shift t ∧ alt s = alt t.
Proof.
  unfold sameChord.
  rewrite !andb_true_iff, String.eqb_eq, !Bool.eqb_true_iff. tauto.
Qed.

Lemma sameChord_sym s t : sameChord s t = sameChord t s.
Proof.
  apply eq_true_iff_eq. rewrite !sameChord_true. intuition congruence.
Qed.

(** Two chords that match one event have the same key and flags. *)
Lemma matches_sameChord e s t :
  matchesShortcut e s = true → matchesShortcut e t = true → sameChord s t = true.
Proof.
  intros Hs Ht. rewrite matchesShortcut_eqb in Hs, Ht.
  rewrite !andb_true_iff, String.eqb_eq, !Bool.eqb_true_iff in Hs, Ht.
  apply sameChord_true. intuition congruence.
Qed.

(** Two chords with the same key and flags match the same events. *)
Lemma sameChord_matches s t e :
  sameChord s t = true → matchesShortcut e s = matchesShortcut e t.
Proof.
  intros (Hk & Hc & Hs & Ha)%sameChord_true.
  rewrite !matchesShortcut_eqb. now rewrite Hk, Hc, Hs, Ha.
Qed.

(** X1: the chord test of [findShortcutConflict] is the right one for
    [matchesShortcut]: two chords that match one event pass it, and two
    chords that pass it match the same events. *)
Theorem same_event_same_chord s t :
  (∀ e, matchesShortcut e s = true → matchesShortcut e t = true → sameChord s t = true)
  ∧ (sameChord s t = true → ∀ e, matchesShortcut e s = matchesShortcut e t).
Proof.
  split.
  - intros e. apply matches_sameChord.
  - intros Hsame e. now apply sameChord_matches.
Qed.

Lemma same_event_same_chord_witness :
  sameChord Demo.chordCtrlSpace
    {| key := "Space"; ctrl := true; shift := false; alt := false;
       description := "Another action" |} = true
  ∧ matchesShortcut Demo.ctrlShiftSpace Demo.chordCtrlSpace
    = matchesShortcut Demo.ctrlShiftSpace
        {| key := "Space"; ctrl := true; shift := false; alt := false;
           description := "Another action" |}.
Proof.
  pose proof (same_event_same_chord Demo.chordCtrlSpace
    {| key := "Space"; ctrl := true; shift := false; alt := false;
       description := "Another action" |}) as [Hfrom Hto].
  split.
  - exact (Hfrom Demo.ctrlSpace eq_refl eq_refl).
  - exact (Hto eq_refl Demo.ctrlShiftSpace).
Defined.

(** [findConflictIn] finds nothing exactly when no binding of another
    action has the chord. *)
Lemma findConflictIn_None actionId s entries :
  findConflictIn actionId s entries = None
  ↔ ∀ other t, (other, t) ∈ entries → other ≠ actionId → sameChord t s = false.
Proof.
  induction entries as [|[other t] rest IH]; cbn.
  - split; [|done]. intros _ other t Hin. by apply elem_of_nil in Hin.
  - destruct (other =? actionId) eqn:Hother.
    + apply String.eqb_eq in Hother as ->. rewrite IH. split.
      * intros Hrest other' t' [[= -> ->]|Hin]%elem_of_cons Hne; [done|eauto].
      * intros Hall other' t' Hin. apply Hall. now right.
    + apply String.eqb_neq in Hother.
      destruct (sameChord t s) eqn:Hsame.
      * split; [done|]. intros Hall.
        rewrite (Hall other t) in Hsame; [done|by left|done].
      * rewrite IH. split.
        -- intros Hrest other' t' [[= -> ->]|Hin]%elem_of_cons Hne; eauto.
        -- intros Hall other' t' Hin. apply Hall. now right.
Qed.

Lemma findConflictIn_Some actionId s entries conflict :
  findConflictIn actionId s entries = Some conflict →
  ∃ other, (other, conflict) ∈ entries ∧ other ≠ actionId ∧ sameChord conflict s = true.
Proof.
  induction entries as [|[other t] rest IH]; cbn; [done|].
  destruct (other =? actionId) eqn:Hother.
  - intros (other' & Hin & Hne & Hsame)%IH. exists other'. split; [now right|done].
  - apply String.eqb_neq in Hother. destruct (sameChord t s) eqn:Hsame.
    + intros [= <-]. exists other. split; [by left|done].
    + intros (other' & Hin & Hne & Hsame')%IH. exists other'. split; [now right|done].
Qed.

(** X2: [findShortcutConflict] returns [null] exactly when no binding of
    another action has the chord, and what it returns otherwise is such a
    binding. *)
Theorem findShortcutConflict_spec actionId s st :
  (findShortcutConflict actionId s st = None
   ↔ ∀ other t, (other, t) ∈ activeShortcuts st → other ≠ actionId →
                sameChord t s = false)
  ∧ (∀ conflict, findShortcutConflict actionId s st = Some conflict →
       ∃ other, (other, conflict) ∈ activeShortcuts st ∧ other ≠ actionId
                ∧ sameChord conflict s = true).
Proof.
  split; [apply findConflictIn_None|]. intros conflict. apply findConflictIn_Some.
Qed.

(** The chord recorded from an event matches that event. *)
Lemma newShortcutOf_matches e text : matchesShortcut e (newShortcutOf e text) = true.
Proof.
  rewrite matchesShortcut_eqb. cbn.
  now rewrite String.eqb_refl, !Bool.eqb_reflx.
Qed.

(** In a table where no other action has the chord, the binding just
    assigned is the one an event of that chord reaches. *)
Lemma dispatch_setEntry e actionId s entries :
  findConflictIn actionId s entries = None →
  matchesShortcut e s = true →
  dispatch e (setEntry actionId s entries)
  = PreventDefault :: callAction (SHORTCUT_ACTIONS actionId).
Proof.
  intros Hnone Hs. induction entries as [|[other t] rest IH]; cbn in *.
  - now rewrite Hs.
  - destruct (other =? actionId) eqn:Hother; cbn.
    + now rewrite Hs.
    + destruct (sameChord t s) eqn:Hsame; [done|].
      destruct (matchesShortcut e t) eqn:Ht.
      * now rewrite (matches_sameChord e t s Ht Hs) in Hsame.
      * now apply IH.
Qed.

Lemma activeShortcuts_assignShortcut actionId s st :
  activeShortcuts (assignShortcut actionId s st) = setEntry actionId s (activeShortcuts st).
Proof.
  unfold assignShortcut, activeShortcuts at 1. cbn.
  now destruct (activeShortcuts st) as [|[other t] rest]; cbn; [|destruct (other =? actionId)].
Qed.

(** X3: a chord that is captured is a chord that works. When the capture
    listener accepts a key press for an action (it is not Escape, not a
    bare modifier, and no other action has the chord), the same key press
    afterwards makes the dispatcher call that action's handler. *)
Theorem captured_chord_dispatches actionId s (ce : CaptureEvent) st (btn : ShortcutButton) :
  keyValue ce ≠ "Escape" →
  keyValue ce ∉ ["Control"; "Shift"; "Alt"; "Meta"] →
  findShortcutConflict actionId (newShortcutOf (pressed ce) (description s)) st = None →
  keydownListener (handleKeyCapture actionId s ce st btn).1.1 (pressed ce)
  = PreventDefault :: callAction (SHORTCUT_ACTIONS actionId).
Proof.
  intros Hescape Hmodifier Hnone. unfold handleKeyCapture.
  rewrite (proj2 (String.eqb_neq _ _) Hescape), bool_decide_eq_false_2 by done.
  cbn zeta. rewrite Hnone. cbn [fst].
  unfold keydownListener. rewrite activeShortcuts_assignShortcut.
  apply dispatch_setEntry; [exact Hnone|apply newShortcutOf_matches].
Qed.

(** Conflict-freedom says that bindings of different actions have
    different chords. *)
Lemma conflictFree_spec entries :
  conflictFree entries
  ↔ ∀ a s b t, (a, s) ∈ entries → (b, t) ∈ entries → a ≠ b → sameChord s t = false.
Proof.
  unfold conflictFree. rewrite Forall_forall. split.
  - intros Hfree a s b t Ha Hb Hne.
    apply (proj1 (findConflictIn_None b t entries) (Hfree (b, t) Hb) a s Ha Hne).
  - intros Hall [b t] Hb. apply findConflictIn_None. intros a s Ha Hne.
    now apply (Hall a s b t).
Qed.

Lemma elem_of_setEntry actionId s entries (x : string * Shortcut) :
  x ∈ setEntry actionId s entries → x = (actionId, s) ∨ x ∈ entries.
Proof.
  induction entries as [|[other t] rest IH]; cbn.
  - intros ->%list_elem_of_singleton. now left.
  - destruct (other =? actionId).
    + intros [->|Hin]%elem_of_cons; [now left|right; now right].
    + intros [->|Hin]%elem_of_cons; [right; by left|].
      destruct (IH Hin) as [->|Hin']; [now left|right; now right].
Qed.

Lemma conflictFree_setEntry actionId s entries :
  conflictFree entries →
  findConflictIn actionId s entries = None →
  conflictFree (setEntry actionId s entries).
Proof.
  rewrite !conflictFree_spec, findConflictIn_None. intros Hfree Hnone a u b t Ha Hb Hne.
  destruct (elem_of_setEntry _ _ _ _ Ha) as [[= -> ->]|Ha'];
    destruct (elem_of_setEntry _ _ _ _ Hb) as [[= -> ->]|Hb'].
  - done.
  - rewrite sameChord_sym. now apply (Hnone b t).
  - now apply (Hnone a u).
  - now apply (Hfree a u b t).
Qed.

(** X4: capturing keeps the table free of conflicts. Whatever key press
    the capture listener of a row receives, if no two actions shared a
    chord before, none do afterwards. *)
Theorem handleKeyCapture_conflictFree actionId s (ce : CaptureEvent) st
    (btn : ShortcutButton) :
  conflictFree (activeShortcuts st) →
  conflictFree (activeShortcuts (handleKeyCapture actionId s ce st btn).1.1).
Proof.
  intros Hfree. unfold handleKeyCapture.
  destruct (keyValue ce =? "Escape"); [exact Hfree|].
  case_bool_decide; [exact Hfree|]. cbn zeta.
  destruct (findShortcutConflict _ _ st) eqn:Hconflict; cbn [fst]; [exact Hfree|].
  rewrite activeShortcuts_assignShortcut. now apply conflictFree_setEntry.
Qed.

(** In a conflict-free table, a binding that matches the event is the one
    the dispatcher takes, wherever it stands. *)
Lemma dispatch_conflictFree e actionId s entries :
  conflictFree entries →
  (actionId, s) ∈ entries →
  matchesShortcut e s = true →
  dispatch e entries = PreventDefault :: callAction (SHORTCUT_ACTIONS actionId).
Proof.
  rewrite conflictFree_spec. intros Hfree Hin Hs.
  induction entries as [|[other t] rest IH]; [by apply elem_of_nil in Hin|].
  cbn. destruct (matchesShortcut e t) eqn:Ht.
  - destruct (decide (other = actionId)) as [->|Hne]; [done|].
    pose proof (matches_sameChord e t s Ht Hs) as Hsame.
    rewrite (Hfree other t actionId s) in Hsame; [done|by left|done|done].
  - apply elem_of_cons in Hin as [[= -> ->]|Hin]; [congruence|].
    apply IH; [|done]. intros a u b v Ha Hb. apply Hfree; now right.
Qed.

Lemma dispatch_none e entries :
  (∀ a s, (a, s) ∈ entries → matchesShortcut e s = false) → dispatch e entries = [].
Proof.
  induction entries as [|[other t] rest IH]; [done|]. intros Hnone. cbn.
  rewrite (Hnone other t) by by left. apply IH. intros a s Hin. apply (Hnone a s). now right.
Qed.

(** X5: in a conflict-free table the order of the bindings does not
    matter: two tables with the same bindings, the first of them free of
    conflicts, dispatch every event alike. *)
Theorem dispatch_order_irrelevant e entries entries' :
  conflictFree entries →
  (∀ b : string * Shortcut, b ∈ entries ↔ b ∈ entries') →
  dispatch e entries = dispatch e entries'.
Proof.
  intros Hfree Hsame.
  assert (Hfree' : conflictFree entries').
  { apply conflictFree_spec. intros a s b t Ha Hb.
    apply (proj1 (conflictFree_spec entries) Hfree); now apply Hsame. }
  destruct (decide (Exists (λ b, matchesShortcut e b.2 = true) entries)) as [Hex|Hno].
  - apply Exists_exists in Hex as ([a s] & Hin & Hs). cbn in Hs.
    rewrite (dispatch_conflictFree e a s entries), (dispatch_conflictFree e a s entries');
      try done. now apply Hsame.
  - rewrite Exists_exists in Hno.
    rewrite !dispatch_none; [done| |].
    + intros a s Hin. apply not_true_is_false. intros Hs. apply Hno.
      exists (a, s). split; [now apply Hsame|done].
    + intros a s Hin. apply not_true_is_false. intros Hs. apply Hno. by exists (a, s).
Qed.

Lemma getEntry_setEntry_eq actionId s entries :
  getEntry actionId (setEntry actionId s entries) = Some s.
Proof.
  induction entries as [|[other t] rest IH]; cbn.
  - now rewrite String.eqb_refl.
  - destruct (other =? actionId) eqn:Hother; cbn.
    + now rewrite String.eqb_refl.
    + now rewrite Hother.
Qed.

Lemma getEntry_setEntry_ne actionId other s entries :
  other ≠ actionId →
  getEntry other (setEntry actionId s entries) = getEntry other entries.
Proof.
  intros Hne. induction entries as [|[k t] rest IH]; cbn.
  - now rewrite (proj2 (String.eqb_neq _ _) (not_eq_sym Hne)).
  - destruct (k =? actionId) eqn:Hk; cbn.
    + apply String.eqb_eq in Hk as ->.
      now rewrite !(proj2 (String.eqb_neq _ _) (not_eq_sym Hne)).
    + destruct (k =? other); [done|exact IH].
Qed.

Lemma getEntry_spread actionId base over :
  actionId ∉ over.*1 → getEntry actionId (spread base over) = getEntry actionId base.
Proof.
  unfold spread. revert base. induction over as [|[k v] over IH]; intros base Hnot; [done|].
  cbn in *. apply not_elem_of_cons in Hnot as [Hne Hnot].
  rewrite IH by done. now apply getEntry_setEntry_ne.
Qed.

(** X6: a successful capture rebinds its own action and no other: the
    action gets the chord of the key press, and every other action keeps
    the chord it had in the table in force, the defaults when nothing was
    stored. *)
Theorem capture_rebinds_one_action actionId s (ce : CaptureEvent) st
    (btn : ShortcutButton) :
  keyValue ce ≠ "Escape" →
  keyValue ce ∉ ["Control"; "Shift"; "Alt"; "Meta"] →
  findShortcutConflict actionId (newShortcutOf (pressed ce) (description s)) st = None →
  let st' := (handleKeyCapture actionId s ce st btn).1.1 in
  getEntry actionId (activeShortcuts st')
  = Some (newShortcutOf (pressed ce) (description s))
  ∧ ∀ other, other ≠ actionId →
      getEntry other (activeShortcuts st') = getEntry other (activeShortcuts st).
Proof.
  intros Hescape Hmodifier Hnone. unfold handleKeyCapture.
  rewrite (proj2 (String.eqb_neq _ _) Hescape), bool_decide_eq_false_2 by done.
  cbn zeta. rewrite Hnone. cbn [fst]. rewrite activeShortcuts_assignShortcut.
  split; [apply getEntry_setEntry_eq|]. intros other Hne. now apply getEntry_setEntry_ne.
Qed.

(** An identifier names at most one registered action. *)
Lemma SHORTCUT_ACTIONS_own actionId (a : Action) :
  SHORTCUT_ACTIONS actionId = OwnAction a →
  actionId = match a with
             | sendRequest => "sendRequest"
             | clearInput => "clearInput"
             | toggleOOS => "toggleOOS"
             end.
Proof.
  unfold SHORTCUT_ACTIONS.
  destruct (actionId =? "sendRequest") eqn:H1;
    [apply String.eqb_eq in H1; now intros [= <-]|].
  destruct (actionId =? "clearInput") eqn:H2;
    [apply String.eqb_eq in H2; now intros [= <-]|].
  destruct (actionId =? "toggleOOS") eqn:H3;
    [apply String.eqb_eq in H3; now intros [= <-]|].
  destruct (actionId =? "__proto__"); [done|]. now case_bool_decide.
Qed.

(** An action runs only through a binding stored under its identifier. *)
Lemma dispatch_runs e (a : Action) entries :
  RunAction a ∈ dispatch e entries →
  ∃ actionId s, (actionId, s) ∈ entries ∧ SHORTCUT_ACTIONS actionId = OwnAction a.
Proof.
  induction entries as [|[other t] rest IH]; cbn; [by intros ?%elem_of_nil|].
  destruct (matchesShortcut e t).
  - intros [?|Hin]%elem_of_cons; [done|]. exists other, t. split; [by left|].
    destruct (SHORTCUT_ACTIONS other); cbn in Hin;
      try (by apply elem_of_nil in Hin);
      apply list_elem_of_singleton in Hin; congruence.
  - intros (actionId & s & Hin & Hown)%IH. exists actionId, s. split; [now right|done].
Qed.

Lemma elem_of_getEntry actionId s entries :
  (actionId, s) ∈ entries → is_Some (getEntry actionId entries).
Proof.
  induction entries as [|[other t] rest IH]; [by intros ?%elem_of_nil|]. cbn.
  intros [[= <- <-]|Hin]%elem_of_cons; [now rewrite String.eqb_refl|].
  destruct (other =? actionId); [done|now apply IH].
Qed.

Lemma getEntry_Some_keys actionId s entries :
  getEntry actionId entries = Some s → actionId ∈ entries.*1.
Proof.
  induction entries as [|[other t] rest IH]; [done|]. cbn.
  destruct (other =? actionId) eqn:Hother.
  - apply String.eqb_eq in Hother as ->. intros _. by left.
  - intros Hget. right. now apply IH.
Qed.

(** X7: the settings tab shows shortcuts that are not in force. When a
    stored table has at least one binding but none for some built-in
    action, the tab draws that action's row with its default chord, yet
    no key press makes the dispatcher run the action. *)
Theorem shown_default_is_not_dispatched actionId (a : Action) d st b bs :
  keyboardShortcuts st = Some (b :: bs) →
  actionId ∉ (b :: bs).*1 →
  SHORTCUT_ACTIONS actionId = OwnAction a →
  getEntry actionId DEFAULT_SHORTCUTS = Some d →
  getEntry actionId (shortcutRows st) = Some d
  ∧ ∀ e, RunAction a ∉ keydownListener st e.
Proof.
  intros Hstored Hnot Hown Hdefault. split.
  - unfold shortcutRows. rewrite Hstored. cbn [default].
    now rewrite getEntry_spread.
  - intros e (other & s & Hin & Hown')%dispatch_runs.
    unfold activeShortcuts in Hin. rewrite Hstored in Hin.
    apply SHORTCUT_ACTIONS_own in Hown, Hown'. subst other.
    apply Hnot. rewrite Hown. apply list_elem_of_fmap. by exists (actionId, s); subst.
Qed.

(** X8: the reset button of a row, pressed while the stored map is empty
    (as it is before anything is saved), leaves a table with that one
    binding: afterwards the only action a key press can run is the one
    that was reset. *)
Theorem reset_on_empty_map_drops_the_others actionId d st (btn : ShortcutButton) :
  keyboardShortcuts st = Some [] →
  getEntry actionId DEFAULT_SHORTCUTS = Some d →
  ∃ st' btn' toasts,
    resetShortcut actionId st btn = Some (st', btn', toasts)
    ∧ activeShortcuts st' = [(actionId, d)]
    ∧ ∀ e (a : Action), RunAction a ∈ keydownListener st' e →
        SHORTCUT_ACTIONS actionId = OwnAction a.
Proof.
  intros Hempty Hdefault. unfold resetShortcut. rewrite Hdefault, Hempty.
  eexists _, _, _. split; [reflexivity|].
  assert (Hactive : activeShortcuts (set_keyboardShortcuts (Some (setEntry actionId d [])) st)
                    = [(actionId, d)]) by reflexivity.
  split; [exact Hactive|]. unfold keydownListener. rewrite Hactive.
  intros e a (other & s & Hin & Hown)%dispatch_runs.
  apply list_elem_of_singleton in Hin as [= -> ->]. exact Hown.
Qed.

Lemma elem_of_setEntry_new actionId s entries : (actionId, s) ∈ setEntry actionId s entries.
Proof.
  induction entries as [|[other t] rest IH]; cbn; [by left|].
  destruct (other =? actionId); [by left|now right].
Qed.

Lemma elem_of_setEntry_other actionId s other t entries :
  (other, t) ∈ entries → other ≠ actionId → (other, t) ∈ setEntry actionId s entries.
Proof.
  intros Hin Hne. induction entries as [|[k u] rest IH]; [by apply elem_of_nil in Hin|].
  cbn. apply elem_of_cons in Hin as [[= <- <-]|Hin].
  - rewrite (proj2 (String.eqb_neq _ _) Hne). by left.
  - destruct (k =? actionId); right; [done|now apply IH].
Qed.

(** X9: the reset button does not look for conflicts. When another action
    holds the default chord of the action that is reset, the reset goes
    through and leaves two actions with one chord, which is what
    [findShortcutConflict] exists to prevent. *)
Theorem reset_can_create_a_conflict actionId d other t st (btn : ShortcutButton) value :
  keyboardShortcuts st = Some value →
  getEntry actionId DEFAULT_SHORTCUTS = Some d →
  (other, t) ∈ value → other ≠ actionId → sameChord t d = true →
  ∃ st' btn' toasts,
    resetShortcut actionId st btn = Some (st', btn', toasts)
    ∧ (actionId, d) ∈ activeShortcuts st' ∧ (other, t) ∈ activeShortcuts st'
    ∧ is_Some (findShortcutConflict actionId d st')
    ∧ ¬ conflictFree (activeShortcuts st').
Proof.
  intros Hstored Hdefault Hin Hne Hsame. unfold resetShortcut.
  rewrite Hdefault, Hstored. eexists _, _, _. split; [reflexivity|].
  assert (Hactive : activeShortcuts
            (set_keyboardShortcuts (Some (setEntry actionId d value)) st)
          = setEntry actionId d value).
  { unfold activeShortcuts. cbn.
    now destruct value as [|[k u] rest]; cbn; [|destruct (k =? actionId)]. }
  unfold findShortcutConflict. rewrite Hactive.
  pose proof (elem_of_setEntry_new actionId d value) as Hnew.
  pose proof (elem_of_setEntry_other actionId d other t value Hin Hne) as Hold.
  repeat split; try done.
  - destruct (findConflictIn actionId d (setEntry actionId d value)) eqn:Hfind; [done|].
    rewrite findConflictIn_None in Hfind. rewrite (Hfind other t) in Hsame; done.
  - rewrite conflictFree_spec. intros Hfree.
    rewrite (Hfree other t actionId d) in Hsame; done.
Qed.

(** X10: the label of a row goes stale. After a capture has rebound the
    action, cancelling a later capture on the same row with Escape leaves
    the settings alone but writes on the button the chord the row was
    drawn with, while the dispatcher is bound to the new chord. *)
Theorem escape_restores_the_drawn_label actionId s (ce escape : CaptureEvent) st
    (btn : ShortcutButton) :
  keyValue ce ≠ "Escape" →
  keyValue ce ∉ ["Control"; "Shift"; "Alt"; "Meta"] →
  findShortcutConflict actionId (newShortcutOf (pressed ce) (description s)) st = None →
  keyValue escape = "Escape" →
  let '(st1, btn1, _) := handleKeyCapture actionId s ce st btn in
  let '(st2, btn2, _) := handleKeyCapture actionId s escape st1 (clickKeyBtn btn1) in
  keyBtn_textContent btn1 = formatShortcut (newShortcutOf (pressed ce) (description s))
  ∧ st2 = st1
  ∧ keyBtn_textContent btn2 = formatShortcut s
  ∧ getEntry actionId (activeShortcuts st2)
    = Some (newShortcutOf (pressed ce) (description s)).
Proof.
  intros Hescape Hmodifier Hnone Hesc. unfold handleKeyCapture.
  rewrite (proj2 (String.eqb_neq _ _) Hescape), bool_decide_eq_false_2 by done.
  cbn zeta. rewrite Hnone, Hesc, String.eqb_refl. cbv beta iota zeta.
  rewrite activeShortcuts_assignShortcut.
  repeat split; try reflexivity. apply getEntry_setEntry_eq.
Qed.

Lemma getEntry_spread_stored actionId s base over :
  NoDup over.*1 → (actionId, s) ∈ over → getEntry actionId (spread base over) = Some s.
Proof.
  unfold spread. revert base. induction over as [|[k v] over IH]; intros base Hnodup Hin.
  - by apply elem_of_nil in Hin.
  - cbn in *. apply NoDup_cons in Hnodup as [Hfresh Hnodup].
    apply elem_of_cons in Hin as [[= -> ->]|Hin].
    + pose proof (getEntry_spread k (setEntry k v base) over Hfresh) as Hkept.
      unfold spread in Hkept. rewrite Hkept. apply getEntry_setEntry_eq.
    + now apply IH.
Qed.

Lemma getEntry_None_keys actionId entries :
  getEntry actionId entries = None → actionId ∉ entries.*1.
Proof.
  induction entries as [|[other t] rest IH]; cbn; [intros _; apply not_elem_of_nil|].
  destruct (other =? actionId) eqn:Hother; [done|].
  apply String.eqb_neq in Hother. intros Hnone. apply not_elem_of_cons. split; [done|auto].
Qed.

Lemma getEntry_elem_of actionId s entries :
  getEntry actionId entries = Some s → (actionId, s) ∈ entries.
Proof.
  induction entries as [|[other t] rest IH]; cbn; [done|].
  destruct (other =? actionId) eqn:Hother.
  - apply String.eqb_eq in Hother as ->. intros [= ->]. by left.
  - intros Hget. right. now apply IH.
Qed.

(** X23: the row of an action shows the stored chord when there is one
    and the default chord otherwise: the stored bindings override the
    defaults they are merged with, one by one, and never hide the default
    of an action they do not bind. *)
Theorem rows_show_stored_over_default actionId st :
  NoDup (default [] (keyboardShortcuts st)).*1 →
  getEntry actionId (shortcutRows st)
  = match getEntry actionId (default [] (keyboardShortcuts st)) with
    | Some s => Some s
    | None => getEntry actionId DEFAULT_SHORTCUTS
    end.
Proof.
  intros Hnodup. unfold shortcutRows.
  destruct (getEntry actionId (default [] (keyboardShortcuts st))) as [s|] eqn:Hstored.
  - apply getEntry_spread_stored; [done|]. now apply getEntry_elem_of.
  - apply getEntry_spread. now apply getEntry_None_keys.
Qed.

(** The modifier names tell the three flags. *)
Lemma modifiers_flags s :
  bool_decide ("Ctrl" ∈ modifiers s) = ctrl s
  ∧ bool_decide ("Shift" ∈ modifiers s) = shift s
  ∧ bool_decide ("Alt" ∈ modifiers s) = alt s.
Proof. unfold modifiers. by destruct (ctrl s), (shift s), (alt s). Qed.

(** X24: the help list says what has to be pressed. Each entry of
    [getKeyboardShortcuts] stands for the binding at the same place in the
    table in force, and an event triggers that binding exactly when its
    code is the entry's key and the modifiers held are exactly the ones
    the entry lists. *)
Theorem help_entry_tells_the_match st (i : nat) (h : ShortcutHelp) :
  getKeyboardShortcuts st !! i = Some h →
  ∃ actionId s,
    activeShortcuts st !! i = Some (actionId, s)
    ∧ help_description h = description s
    ∧ ∀ e, matchesShortcut e s
           = (code e =? help_key h)
             && Bool.eqb (ctrlKey e || metaKey e) (bool_decide ("Ctrl" ∈ help_modifiers h))
             && Bool.eqb (shiftKey e) (bool_decide ("Shift" ∈ help_modifiers h))
             && Bool.eqb (altKey e) (bool_decide ("Alt" ∈ help_modifiers h)).
Proof.
  unfold getKeyboardShortcuts. rewrite list_lookup_fmap.
  destruct (activeShortcuts st !! i) as [[actionId s]|]; cbn; [|done].
  intros [= <-]. exists actionId, s. cbn. split; [done|]. split; [done|].
  intros e. destruct (modifiers_flags s) as (-> & -> & ->). apply matchesShortcut_eqb.
Qed.

End ShortcutSettings.

(** Rebinding [clearInput] to Ctrl+Shift+Space: that key press then clears
    the input. *)
Lemma captured_chord_dispatches_witness :
  keydownListener
    (handleKeyCapture "clearInput" Demo.chordCtrlL Sample.pressCtrlShiftSpace
       initialSettings Sample.listening).1.1
    Demo.ctrlShiftSpace
  = [PreventDefault; RunAction clearInput].
Proof.
  apply (captured_chord_dispatches "clearInput" Demo.chordCtrlL
           Sample.pressCtrlShiftSpace initialSettings Sample.listening).
  - discriminate.
  - apply (bool_decide_unpack _). reflexivity.
  - reflexivity.
Defined.

(** The default table is free of conflicts, and stays so when
    [sendRequest] is rebound to Ctrl+Shift+Space. *)
Lemma handleKeyCapture_conflictFree_witness :
  conflictFree (activeShortcuts initialSettings)
  ∧ conflictFree (activeShortcuts Sample.sendMoved).
Proof.
  assert (Hdefault : conflictFree (activeShortcuts initialSettings))
    by (repeat constructor).
  split; [exact Hdefault|].
  exact (handleKeyCapture_conflictFree "sendRequest" Demo.chordCtrlSpace
           Sample.pressCtrlShiftSpace initialSettings Sample.listening Hdefault).
Defined.

(** The default table read backwards dispatches Ctrl+Space as the default
    table does. *)
Lemma dispatch_order_irrelevant_witness :
  dispatch Demo.ctrlSpace DEFAULT_SHORTCUTS
  = dispatch Demo.ctrlSpace (reverse DEFAULT_SHORTCUTS).
Proof.
  apply dispatch_order_irrelevant.
  - repeat constructor.
  - intros b. symmetry. apply elem_of_reverse.
Defined.

(** Rebinding [clearInput] on a fresh installation: the defaults of the two
    other actions stay in the table. *)
Lemma capture_rebinds_one_action_witness :
  getEntry "clearInput"
    (activeShortcuts
       (handleKeyCapture "clearInput" Demo.chordCtrlL Sample.pressCtrlShiftSpace
          initialSettings Sample.listening).1.1)
  = Some (newShortcutOf Demo.ctrlShiftSpace "Clear request input")
  ∧ getEntry "sendRequest"
      (activeShortcuts
         (handleKeyCapture "clearInput" Demo.chordCtrlL Sample.pressCtrlShiftSpace
            initialSettings Sample.listening).1.1)
    = Some Demo.chordCtrlSpace.
Proof.
  pose proof (capture_rebinds_one_action "clearInput" Demo.chordCtrlL
                Sample.pressCtrlShiftSpace initialSettings Sample.listening
                ltac:(discriminate)
                (bool_decide_unpack (" " ∉ ["Control"; "Shift"; "Alt"; "Meta"]) I)
                eq_refl) as [Hown Hothers].
  split; [exact Hown|]. exact (Hothers "sendRequest" ltac:(discriminate)).
Defined.

(** With only [sendRequest] stored, the row of [clearInput] shows Ctrl+L
    and Ctrl+L does nothing. *)
Lemma shown_default_is_not_dispatched_witness :
  getEntry "clearInput" (shortcutRows Sample.onlySend) = Some Demo.chordCtrlL
  ∧ keydownListener Sample.onlySend
      {| code := "KeyL"; ctrlKey := true; metaKey := false; shiftKey := false;
         altKey := false |}
    = [].
Proof.
  pose proof (shown_default_is_not_dispatched "clearInput" clearInput Demo.chordCtrlL
                Sample.onlySend ("sendRequest", Demo.chordCtrlSpace) []
                eq_refl
                (bool_decide_unpack ("clearInput" ∉ [("sendRequest", Demo.chordCtrlSpace)].*1) I)
                eq_refl eq_refl) as [Hrow _].
  split; [exact Hrow|reflexivity].
Defined.

(** Resetting the row of [sendRequest] on a fresh installation leaves a
    table with that binding alone. *)
Lemma reset_on_empty_map_drops_the_others_witness :
  ∃ st' btn' toasts,
    resetShortcut "sendRequest" initialSettings Sample.listening = Some (st', btn', toasts)
    ∧ activeShortcuts st' = [("sendRequest", Demo.chordCtrlSpace)]
    ∧ ∀ e (a : Action), RunAction a ∈ keydownListener st' e →
        SHORTCUT_ACTIONS "sendRequest" = OwnAction a.
Proof.
  exact (reset_on_empty_map_drops_the_others "sendRequest" Demo.chordCtrlSpace
           initialSettings Sample.listening eq_refl eq_refl).
Defined.

(** [sendRequest] moved away, [clearInput] took Ctrl+Space, and then
    [sendRequest] is reset: both are on Ctrl+Space. *)
Lemma reset_can_create_a_conflict_witness :
  ∃ st' btn' toasts,
    resetShortcut "sendRequest" Sample.clearTookCtrlSpace Sample.listening
    = Some (st', btn', toasts)
    ∧ ("sendRequest", Demo.chordCtrlSpace) ∈ activeShortcuts st'
    ∧ ("clearInput", newShortcutOf Demo.ctrlSpace "Clear request input")
      ∈ activeShortcuts st'
    ∧ is_Some (findShortcutConflict "sendRequest" Demo.chordCtrlSpace st')
    ∧ ¬ conflictFree (activeShortcuts st').
Proof.
  apply (reset_can_create_a_conflict "sendRequest" Demo.chordCtrlSpace "clearInput"
           (newShortcutOf Demo.ctrlSpace "Clear request input")
           Sample.clearTookCtrlSpace Sample.listening
           [("sendRequest", newShortcutOf Demo.ctrlShiftSpace "Send request");
            ("clearInput", newShortcutOf Demo.ctrlSpace "Clear request input");
            ("toggleOOS",
             {| key := "KeyO"; ctrl := true; shift := true; alt := false;
                description := "Toggle OOS visibility" |})]).
  - reflexivity.
  - reflexivity.
  - right. left.
  - discriminate.
  - reflexivity.
Defined.

(** [sendRequest] is rebound to Ctrl+Shift+Space; a second capture on the
    row, cancelled, writes [Ctrl + Space] back on the button. *)
Lemma escape_restores_the_drawn_label_witness :
  let '(st1, btn1, _) :=
    handleKeyCapture "sendRequest" Demo.chordCtrlSpace Sample.pressCtrlShiftSpace
      initialSettings Sample.listening in
  let '(st2, btn2, _) :=
    handleKeyCapture "sendRequest" Demo.chordCtrlSpace Sample.pressEscape st1
      (clickKeyBtn btn1) in
  keyBtn_textContent btn1 = "Ctrl + Shift + Space"
  ∧ st2 = st1
  ∧ keyBtn_textContent btn2 = "Ctrl + Space"
  ∧ getEntry "sendRequest" (activeShortcuts st2)
    = Some (newShortcutOf Demo.ctrlShiftSpace "Send request").
Proof.
  exact (escape_restores_the_drawn_label "sendRequest" Demo.chordCtrlSpace
           Sample.pressCtrlShiftSpace Sample.pressEscape initialSettings
           Sample.listening ltac:(discriminate)
           (bool_decide_unpack (" " ∉ ["Control"; "Shift"; "Alt"; "Meta"]) I)
           eq_refl eq_refl).
Defined.

(** With [sendRequest] rebound, its row shows Ctrl+Shift+Space and the row
    of [toggleOOS] its default. *)
Lemma rows_show_stored_over_default_witness :
  getEntry "sendRequest" (shortcutRows Sample.sendMoved)
  = Some (newShortcutOf Demo.ctrlShiftSpace "Send request")
  ∧ getEntry "clearInput" (shortcutRows Sample.onlySend) = Some Demo.chordCtrlL.
Proof.
  split.
  - exact (rows_show_stored_over_default "sendRequest" Sample.sendMoved
             (bool_decide_unpack
                (NoDup (default [] (keyboardShortcuts Sample.sendMoved)).*1) I)).
  - exact (rows_show_stored_over_default "clearInput" Sample.onlySend
             (bool_decide_unpack
                (NoDup (default [] (keyboardShortcuts Sample.onlySend)).*1) I)).
Defined.

(** The third entry of the default help is Ctrl+Shift+O. *)
Lemma help_entry_tells_the_match_witness :
  ∃ actionId s,
    activeShortcuts initialSettings !! 2%nat = Some (actionId, s)
    ∧ help_description
        {| help_key := "KeyO"; help_modifiers := ["Ctrl"; "Shift"];
           help_description := "Toggle OOS visibility" |}
      = description s
    ∧ ∀ e, matchesShortcut e s
           = (code e =? "KeyO")
             && Bool.eqb (ctrlKey e || metaKey e) true
             && Bool.eqb (shiftKey e) true
             && Bool.eqb (altKey e) false.
Proof.
  exact (help_entry_tells_the_match initialSettings 2
           {| help_key := "KeyO"; help_modifiers := ["Ctrl"; "Shift"];
              help_description := "Toggle OOS visibility" |} eq_refl).
Defined.

(** ** The pattern lists of the settings tab *)

Section PatternLists.

Context `{!Engine}.

Implicit Types (ui : ListInput) (value : list string) (trim : string → string).

(** [splice(index, 1)] past the end removes nothing. *)
Lemma delete_past_end {A} (l : list A) (i : nat) :
  (length l ≤ i)%nat → delete i l = l.
Proof.
  revert i. induction l as [|x l IH]; intros [|i] Hlen; cbn in *; try done; [lia|].
  f_equal. apply IH. lia.
Qed.

Lemma shown_renderList value : shown (renderList value) = value.
Proof.
  unfold shown, renderList. cbn. apply list_eq. intros i.
  rewrite list_lookup_fmap, list_lookup_imap. now destruct (value !! i).
Qed.


(** X12: right after the list is drawn, a delete button removes its own
    pattern: the list and the display both lose the row that was clicked,
    and nothing else. *)
Theorem first_delete_is_right value (position : nat) :
  items (deleteRow position (renderList value)) = delete position value
  ∧ shown (deleteRow position (renderList value)) = delete position value.
Proof.
  pose proof (shown_renderList value) as Hshown.
  unfold deleteRow. cbn [rows renderList]. rewrite list_lookup_imap.
  destruct (value !! position) as [item|] eqn:Hitem; cbn [fmap option_fmap option_map].
  - unfold shown in *. cbn [items rows renderList] in *.
    split; [done|]. now rewrite list_fmap_delete, Hshown.
  - apply lookup_ge_None in Hitem. rewrite Hshown. cbn [items renderList].
    split; symmetry; now apply delete_past_end.
Qed.

(** The rows left by a first deletion: those after the deleted one still
    carry the index they were created with, one more than their place. *)
Lemma rows_after_delete value (p j : nat) :
  rows (deleteRow p (renderList value)) !! j
  = if decide (j < p)%nat then (λ item, (j, item)) <$> value !! j
    else if decide (p < length value)%nat then (λ item, (S j, item)) <$> value !! S j
    else (λ item, (j, item)) <$> value !! j.
Proof.
  unfold deleteRow. cbn [rows renderList]. rewrite list_lookup_imap.
  destruct (value !! p) as [item|] eqn:Hitem;
    cbn [fmap option_fmap option_map rows renderList].
  - pose proof (lookup_lt_Some _ _ _ Hitem) as Hlt.
    rewrite list_lookup_delete, !list_lookup_imap.
    destruct (decide (j < p)%nat); [done|]. now rewrite decide_True.
  - apply lookup_ge_None in Hitem. rewrite list_lookup_imap.
    destruct (decide (j < p)%nat); [done|]. rewrite decide_False by lia. done.
Qed.

Lemma items_after_delete value (p : nat) :
  items (deleteRow p (renderList value)) = delete p value.
Proof.
  unfold deleteRow. cbn [rows renderList]. rewrite list_lookup_imap.
  destruct (value !! p) as [item|] eqn:Hitem; cbn; [done|].
  apply lookup_ge_None in Hitem. symmetry. now apply delete_past_end.
Qed.

Lemma shown_after_delete value (p : nat) :
  shown (deleteRow p (renderList value)) = delete p value.
Proof.
  pose proof (shown_renderList value) as Hshown.
  unfold deleteRow. cbn [rows renderList]. rewrite list_lookup_imap.
  destruct (value !! p) as [item|] eqn:Hitem; cbn [fmap option_fmap option_map].
  - unfold shown in *. cbn [items rows renderList] in *.
    now rewrite list_fmap_delete, Hshown.
  - apply lookup_ge_None in Hitem. rewrite Hshown. symmetry. now apply delete_past_end.
Qed.

(** X13: a delete button goes stale once a row above it has been deleted.
    After the row at [p] is deleted, the delete button of a row that stood
    below it, at [q], still holds the index [q] although the pattern has
    moved up to [q - 1]: a click removes the row from the display but
    splices the list at [q], so the clicked pattern stays in the settings
    and the pattern that followed it (if any) is removed instead. *)
Theorem later_delete_splices_the_next_pattern value (p q : nat) (pattern : string) :
  (p < q)%nat → value !! q = Some pattern →
  let ui := deleteRow (q - 1) (deleteRow p (renderList value)) in
  shown ui = delete (q - 1) (delete p value)
  ∧ items ui = delete q (delete p value)
  ∧ items ui !! (q - 1)%nat = Some pattern
  ∧ shown ui !! (q - 1)%nat = value !! S q.
Proof.
  intros Hpq Hq ui. pose proof (lookup_lt_Some _ _ _ Hq) as Hlen.
  assert (Hrow : rows (deleteRow p (renderList value)) !! (q - 1)%nat = Some (q, pattern)).
  { rewrite rows_after_delete, decide_False, decide_True by lia.
    replace (S (q - 1)) with q by lia. now rewrite Hq. }
  assert (Hshown : shown ui = delete (q - 1) (delete p value)).
  { subst ui. unfold deleteRow at 1. rewrite Hrow. unfold shown. cbn [rows].
    rewrite list_fmap_delete. f_equal. apply shown_after_delete. }
  assert (Hitems : items ui = delete q (delete p value)).
  { subst ui. unfold deleteRow at 1. rewrite Hrow. cbn [items].
    now rewrite items_after_delete. }
  split; [exact Hshown|]. split; [exact Hitems|]. split.
  - rewrite Hitems, list_lookup_delete_lt, list_lookup_delete_ge by lia.
    replace (S (q - 1)) with q by lia. exact Hq.
  - rewrite Hshown, !list_lookup_delete_ge by lia.
    now replace (S (q - 1)) with q by lia.
Qed.

(** X14: deleting from the bottom up is safe. After the row at [p] is
    deleted, the delete button of a row above it, at [q], still removes
    its own pattern: the list and the display stay the same. *)
Theorem earlier_delete_is_right value (p q : nat) :
  (q < p)%nat →
  let ui := deleteRow q (deleteRow p (renderList value)) in
  items ui = delete q (delete p value) ∧ shown ui = delete q (delete p value).
Proof.
  intros Hqp ui.
  pose proof (rows_after_delete value p q) as Hrow. rewrite decide_True in Hrow by lia.
  subst ui. unfold deleteRow at 1 3. rewrite Hrow.
  destruct (value !! q) as [item|] eqn:Hitem; cbn [fmap option_fmap option_map].
  - unfold shown. cbn [items rows]. rewrite list_fmap_delete.
    fold (shown (deleteRow p (renderList value))).
    now rewrite items_after_delete, shown_after_delete.
  - apply lookup_ge_None in Hitem.
    rewrite items_after_delete, shown_after_delete.
    assert (Hlen : (length (delete p value) ≤ q)%nat)
      by (rewrite (delete_past_end value p) by lia; done).
    now rewrite !(delete_past_end (delete p value) q).
Qed.

End PatternLists.

(** Three patterns; the first row is deleted, then the row of the second:
    the display keeps the third pattern, the settings keep the second. *)
Lemma later_delete_splices_the_next_pattern_witness :
  shown (deleteRow 0 (deleteRow 0 (renderList ["^/a"; "^/b"; "^/c"]))) = ["^/c"]
  ∧ items (deleteRow 0 (deleteRow 0 (renderList ["^/a"; "^/b"; "^/c"]))) = ["^/b"].
Proof.
  pose proof (later_delete_splices_the_next_pattern ["^/a"; "^/b"; "^/c"] 0 1 "^/b"
                ltac:(lia) eq_refl) as (Hshown & Hitems & _).
  exact (conj Hshown Hitems).
Defined.

(** The same list, deleted from the bottom: second row, then first. *)
Lemma earlier_delete_is_right_witness :
  items (deleteRow 0 (deleteRow 1 (renderList ["^/a"; "^/b"; "^/c"]))) = ["^/c"]
  ∧ shown (deleteRow 0 (deleteRow 1 (renderList ["^/a"; "^/b"; "^/c"]))) = ["^/c"].
Proof.
  exact (earlier_delete_is_right ["^/a"; "^/b"; "^/c"] 1 0 ltac:(lia)).
Defined.

(** ** Saving, loading and resetting the settings *)

Section Persistence.

Context `{!Imports}.

Implicit Types (w : World) (JSON_stringify : Serializer) (checkCorsPermission : Permission).

(** A load that gets through its [try] block: what it leaves behind. *)
Lemma loadSettings_done checkCorsPermission w w0 hasPermission :
  readStored w = (Normal (), w0) →
  checkCorsPermission = inr hasPermission →
  ∃ w',
    loadSettings checkCorsPermission w = (Normal (), w')
    ∧ settings w'
      = set_oosPatterns (Some (orDefaults (oosPatterns (settings w0))))
          (set_enableCorsForAllHosts hasPermission (settings w0))
    ∧ classifier w'
      = {| classifier_oos := orDefaults (oosPatterns (settings w0));
           classifier_inScope := classifier_inScope (classifier w) |}
    ∧ store w' = foldl (reclassifyOne (classifier w')) (store w) (requests (state w))
    ∧ state w' = state w
    ∧ elements w' = elements w
    ∧ localStorage_rep_settings w' = localStorage_rep_settings w0
    ∧ console w' = console w.
Proof.
  intros Hread ->.
  assert (Hsame : state w0 = state w ∧ store w0 = store w ∧ classifier w0 = classifier w
                  ∧ console w0 = console w ∧ elements w0 = elements w).
  { revert Hread. unfold readStored. js_unfold. cbn.
    destruct (truthy (localStorage_rep_settings w)); cbn.
    - destruct (JSON_parse _); cbn; [discriminate|]. by intros [= <-].
    - by intros [= <-]. }
  destruct Hsame as (Hstate & Hstore & Hclassifier & Hconsole & Helements).
  unfold loadSettings, loadStored, orDefaults. js_unfold. cbn. rewrite Hread. cbn.
  destruct (noPatterns (oosPatterns (settings w0))) eqn:Hnone; cbn.
  - eexists. split; [reflexivity|]. cbn.
    rewrite Hstate, Hstore, Hclassifier, Hconsole, Helements. by repeat split.
  - destruct (noPatterns_false _ Hnone) as (patterns & Hsome & Hne).
    eexists. split; [reflexivity|]. cbn.
    rewrite Hsome, Hstate, Hstore, Hclassifier, Hconsole, Helements. cbn.
    repeat split; try done. unfold set_oosPatterns, set_enableCorsForAllHosts. cbn.
    now rewrite Hsome.
Qed.

Lemma applyStored_storedOf (s s' : Settings) : applyStored (storedOf s) s' = s.
Proof. now destruct s. Qed.

Lemma orDefaults_nonempty (v : option (list string)) : noPatterns (Some (orDefaults v)) = false.
Proof. unfold orDefaults. now destruct v as [[|p ps]|]. Qed.

Lemma orDefaults_twice (v : option (list string)) :
  orDefaults (Some (orDefaults v)) = orDefaults v.
Proof. unfold orDefaults at 1. now rewrite orDefaults_nonempty. Qed.

(** X15: what is saved comes back. When the save button's
    [saveSettingsFromUI] stores the settings and the text it stored parses
    back to the values it was made from, the load that follows leaves
    every setting as it was, except that the CORS flag takes Chrome's
    answer and an unset or empty OOS list is filled with the defaults; the
    classifier is given that list. *)
Theorem saved_settings_load_back JSON_stringify checkCorsPermission w
    (text : string) (hasPermission : bool) :
  JSON_stringify (settings w) = inr text →
  truthy (Some text) = true →
  JSON_parse text = inr (storedOf (settings w)) →
  checkCorsPermission = inr hasPermission →
  ∃ w',
    saveSettingsFromUI JSON_stringify checkCorsPermission w = (Normal true, w')
    ∧ localStorage_rep_settings w' = Some text
    ∧ settings w'
      = set_oosPatterns (Some (orDefaults (oosPatterns (settings w))))
          (set_enableCorsForAllHosts hasPermission (settings w))
    ∧ classifier_oos (classifier w') = orDefaults (oosPatterns (settings w)).
Proof.
  intros Hsaved Htext Hparsed Hpermission.
  set (w1 := with_localStorage (Some text) w).
  assert (Hread : readStored w1 = (Normal (), with_settings (applyStored (storedOf (settings w))) w1)).
  { unfold readStored, w1. js_unfold. cbn in Htext |- *.
    rewrite Htext. cbn. now rewrite Hparsed. }
  destruct (loadSettings_done checkCorsPermission w1 _ hasPermission Hread Hpermission)
    as (w' & Hload & Hsettings & Hclassifier & _ & _ & _ & Hstorage & _).
  exists w'. split.
  - unfold saveSettingsFromUI, saveSettings. js_unfold. cbn. rewrite Hsaved. cbn.
    fold w1. now rewrite Hload.
  - cbn [settings with_settings] in Hsettings, Hclassifier.
    rewrite applyStored_storedOf in Hsettings, Hclassifier.
    split; [exact Hstorage|]. split; [exact Hsettings|]. now rewrite Hclassifier.
Qed.

(** X16: a save that fails changes nothing. When the settings cannot be
    serialised or stored, [saveSettingsFromUI] returns [false]; nothing is
    written to the storage, the settings are not loaded again, the
    classifier is not touched, and the only trace is the error on the
    console. *)
Theorem failed_save_changes_nothing JSON_stringify checkCorsPermission w (err : JsError) :
  JSON_stringify (settings w) = inl err →
  saveSettingsFromUI JSON_stringify checkCorsPermission w
  = (Normal false,
     with_console (λ entries, (entries ++ [ConsoleError "Failed to save settings:" err])%list) w).
Proof.
  intros Hfailed. unfold saveSettingsFromUI, saveSettings. js_unfold. cbn.
  now rewrite Hfailed.
Qed.

(** X17: a reset restores every default but the CORS flag. When the
    defaults are stored and parse back, [resetSettings] leaves the default
    value in every setting, with the CORS flag set to Chrome's answer
    rather than to its default [false], and the classifier holds the
    default OOS patterns. *)
Theorem reset_restores_defaults JSON_stringify checkCorsPermission w
    (text : string) (hasPermission : bool) :
  JSON_stringify defaultSettings = inr text →
  truthy (Some text) = true →
  JSON_parse text = inr (storedOf defaultSettings) →
  checkCorsPermission = inr hasPermission →
  let w' := run (resetSettings JSON_stringify checkCorsPermission) w in
  settings w' = set_enableCorsForAllHosts hasPermission defaultSettings
  ∧ classifier_oos (classifier w') = DEFAULT_OOS_PATTERNS
  ∧ localStorage_rep_settings w' = Some text.
Proof.
  intros Hsaved Htext Hparsed Hpermission w'.
  set (w1 := with_localStorage (Some text) (with_settings (λ _, defaultSettings) w)).
  assert (Hread : readStored w1 = (Normal (), with_settings (applyStored (storedOf defaultSettings)) w1)).
  { unfold readStored, w1. js_unfold. cbn in Htext |- *.
    rewrite Htext. cbn. now rewrite Hparsed. }
  destruct (loadSettings_done checkCorsPermission w1 _ hasPermission Hread Hpermission)
    as (w2 & Hload & Hsettings & Hclassifier & _ & _ & _ & Hstorage & _).
  assert (Hw' : w' = w2).
  { subst w'. unfold run, resetSettings, saveSettings. js_unfold. cbn.
    rewrite Hsaved. cbn. fold w1. now rewrite Hload. }
  rewrite Hw'. cbn [settings with_settings] in Hsettings, Hclassifier.
  rewrite applyStored_storedOf in Hsettings, Hclassifier.
  split; [exact Hsettings|]. split; [now rewrite Hclassifier|exact Hstorage].
Qed.

(** X18: a reset whose save fails is undone by its own load. When the
    defaults cannot be stored while older settings are in the storage,
    [resetSettings] goes on to load those: every setting the storage
    holds comes back in place of its default. *)
Theorem reset_with_failed_save_reloads_the_stored JSON_stringify checkCorsPermission w
    (err : JsError) (parsed : StoredSettings) (hasPermission : bool) :
  JSON_stringify defaultSettings = inl err →
  truthy (localStorage_rep_settings w) = true →
  JSON_parse (default "" (localStorage_rep_settings w)) = inr parsed →
  checkCorsPermission = inr hasPermission →
  let w' := run (resetSettings JSON_stringify checkCorsPermission) w in
  let loaded := applyStored parsed defaultSettings in
  settings w'
  = set_oosPatterns (Some (orDefaults (oosPatterns loaded)))
      (set_enableCorsForAllHosts hasPermission loaded)
  ∧ localStorage_rep_settings w' = localStorage_rep_settings w.
Proof.
  intros Hfailed Hstored Hparsed Hpermission w' loaded.
  set (w1 := with_console
               (λ entries, (entries ++ [ConsoleError "Failed to save settings:" err])%list)
               (with_settings (λ _, defaultSettings) w)).
  assert (Hread : readStored w1 = (Normal (), with_settings (applyStored parsed) w1)).
  { unfold readStored, w1. js_unfold. cbn.
    rewrite Hstored. cbn. now rewrite Hparsed. }
  destruct (loadSettings_done checkCorsPermission w1 _ hasPermission Hread Hpermission)
    as (w2 & Hload & Hsettings & _ & _ & _ & _ & Hstorage & _).
  assert (Hw' : w' = w2).
  { subst w'. unfold run, resetSettings, saveSettings. js_unfold. cbn.
    rewrite Hfailed. cbn. fold w1. now rewrite Hload. }
  rewrite Hw'. split; [exact Hsettings|exact Hstorage].
Qed.

Lemma readStored_storage w w0 :
  readStored w = (Normal (), w0) →
  localStorage_rep_settings w0 = localStorage_rep_settings w.
Proof.
  unfold readStored. js_unfold. cbn.
  destruct (truthy (localStorage_rep_settings w)); cbn.
  - destruct (JSON_parse _); cbn; [discriminate|]. now intros [= <-].
  - now intros [= <-].
Qed.

(** Reading the same storage again applies the same stored values. *)
Lemma readStored_again w w0 w1 :
  readStored w = (Normal (), w0) →
  localStorage_rep_settings w1 = localStorage_rep_settings w →
  ∃ (f : Settings → Settings) w01,
    settings w0 = f (settings w)
    ∧ localStorage_rep_settings w0 = localStorage_rep_settings w
    ∧ readStored w1 = (Normal (), w01)
    ∧ settings w01 = f (settings w1)
    ∧ (f = (λ s, s) ∨ ∃ parsed, f = applyStored parsed).
Proof.
  unfold readStored. js_unfold. cbn. intros Hread ->.
  destruct (truthy (localStorage_rep_settings w)); cbn in *.
  - destruct (JSON_parse _) as [err|parsed]; cbn in *; [discriminate|].
    injection Hread as <-. exists (applyStored parsed). eexists.
    repeat split; eauto.
  - injection Hread as <-. exists (λ s, s), w1. repeat split; eauto.
Qed.

(** What a load does to the settings, once the stored values are in. *)
Lemma settle_twice (f : Settings → Settings) (hasPermission : bool) (s : Settings) :
  f = (λ s, s) ∨ (∃ parsed, f = applyStored parsed) →
  let settle := λ x, set_oosPatterns (Some (orDefaults (oosPatterns x)))
                       (set_enableCorsForAllHosts hasPermission x) in
  settle (f (settle (f s))) = settle (f s).
Proof.
  intros [->|[parsed ->]] settle; subst settle; unfold set_oosPatterns,
    set_enableCorsForAllHosts, applyStored; cbn.
  - now rewrite orDefaults_twice.
  - destruct parsed as [[k|] [m|] [c|] [o|] [i|] [b|]]; cbn;
      rewrite ?orDefaults_twice; reflexivity.
Qed.

(** X19: loading is idempotent. Two loads in a row, from the same storage
    and with the same answer from Chrome, leave the settings, the
    classifier's patterns, the captured requests and the session state
    exactly as one load does. *)
Theorem loadSettings_twice checkCorsPermission w w0 (hasPermission : bool) :
  readStored w = (Normal (), w0) →
  checkCorsPermission = inr hasPermission →
  let w1 := run (loadSettings checkCorsPermission) w in
  let w2 := run (loadSettings checkCorsPermission) w1 in
  settings w2 = settings w1 ∧ classifier w2 = classifier w1
  ∧ store w2 = store w1 ∧ state w2 = state w1.
Proof.
  intros Hread Hpermission w1 w2.
  destruct (loadSettings_done checkCorsPermission w w0 hasPermission Hread Hpermission)
    as (w1' & Hload1 & Hsettings1 & Hclassifier1 & Hstore1 & Hstate1 & _ & Hstorage1 & _).
  assert (Hw1 : w1 = w1') by (subst w1; unfold run; now rewrite Hload1).
  destruct (readStored_again w w0 w1) as (f & w01 & Hf0 & Hstorage0 & Hread1 & Hf1 & Hshape).
  { exact Hread. }
  { rewrite Hw1, Hstorage1. now apply readStored_storage. }
  destruct (loadSettings_done checkCorsPermission w1 w01 hasPermission Hread1 Hpermission)
    as (w2' & Hload2 & Hsettings2 & Hclassifier2 & Hstore2 & Hstate2 & _).
  assert (Hw2 : w2 = w2') by (subst w2; unfold run; now rewrite Hload2).
  rewrite Hw2. rewrite <- Hw1 in Hsettings1, Hclassifier1, Hstore1, Hstate1.
  assert (Hsettings : settings w2' = settings w1).
  { rewrite Hsettings2, Hf1, Hsettings1, Hf0.
    exact (settle_twice f hasPermission (settings w) Hshape). }
  assert (Hclassifier : classifier w2' = classifier w1).
  { rewrite Hclassifier2, Hclassifier1. cbn. f_equal.
    assert (Hoos : oosPatterns (settings w2') = oosPatterns (settings w1))
      by now rewrite Hsettings.
    rewrite Hsettings2, Hsettings1 in Hoos. cbn in Hoos. now injection Hoos. }
  split; [exact Hsettings|]. split; [exact Hclassifier|].
  split; [|exact Hstate2].
  rewrite Hstore2, Hclassifier, Hstate1. rewrite Hstore1 at 2. rewrite Hstore1.
  apply map_eq. intros r. rewrite !reclassify_lookup.
  case_bool_decide; [|done]. now destruct (store w !! r).
Qed.

(** X25: a load takes from the storage what the storage has. For each
    setting, a key the stored object has replaces the value in memory and
    a key it lacks leaves that value alone; the stored CORS flag counts
    for nothing, the flag being set to Chrome's answer; and the OOS list
    is then filled with the defaults when it is unset or empty. *)
Theorem load_keeps_what_is_not_stored checkCorsPermission w
    (parsed : StoredSettings) (hasPermission : bool) :
  truthy (localStorage_rep_settings w) = true →
  JSON_parse (default "" (localStorage_rep_settings w)) = inr parsed →
  checkCorsPermission = inr hasPermission →
  let w' := run (loadSettings checkCorsPermission) w in
  anthropicApiKey (settings w')
  = default (anthropicApiKey (settings w)) (stored_anthropicApiKey parsed)
  ∧ anthropicModel (settings w')
    = default (anthropicModel (settings w)) (stored_anthropicModel parsed)
  ∧ inScopePatterns (settings w')
    = default (inScopePatterns (settings w)) (stored_inScopePatterns parsed)
  ∧ keyboardShortcuts (settings w')
    = default (keyboardShortcuts (settings w)) (stored_keyboardShortcuts parsed)
  ∧ enableCorsForAllHosts (settings w') = hasPermission
  ∧ oosPatterns (settings w')
    = Some (orDefaults (default (oosPatterns (settings w)) (stored_oosPatterns parsed))).
Proof.
  intros Hstored Hparsed Hpermission w'.
  assert (Hread : readStored w = (Normal (), with_settings (applyStored parsed) w)).
  { unfold readStored. js_unfold. cbn. rewrite Hstored. cbn. now rewrite Hparsed. }
  destruct (loadSettings_done checkCorsPermission w _ hasPermission Hread Hpermission)
    as (w1 & Hload & Hsettings & _).
  subst w'. rewrite (run_normal _ _ _ _ Hload), Hsettings. by repeat split.
Qed.

End Persistence.

(** Saving the default settings with the permission granted. *)
Lemma saved_settings_load_back_witness :
  ∃ w',
    @saveSettingsFromUI Sample.imports Sample.stringify (inr true) Sample.withDefaults
    = (Normal true, w')
    ∧ localStorage_rep_settings w' = Some "{defaults}"
    ∧ settings w'
      = set_oosPatterns (Some (orDefaults (oosPatterns defaultSettings)))
          (set_enableCorsForAllHosts true defaultSettings)
    ∧ classifier_oos (classifier w') = orDefaults (oosPatterns defaultSettings).
Proof.
  exact (@saved_settings_load_back Sample.imports Sample.stringify (inr true)
           Sample.withDefaults "{defaults}" true eq_refl eq_refl eq_refl eq_refl).
Defined.

(** Saving while the storage is full. *)
Lemma failed_save_changes_nothing_witness :
  @saveSettingsFromUI Sample.imports Sample.storageFull (inr true) Sample.withSendMoved
  = (Normal false,
     with_console
       (λ entries,
          (entries ++ [ConsoleError "Failed to save settings:" Sample.quotaExceeded])%list)
       Sample.withSendMoved).
Proof.
  exact (@failed_save_changes_nothing Sample.imports Sample.storageFull (inr true)
           Sample.withSendMoved Sample.quotaExceeded eq_refl).
Defined.

(** Resetting after [sendRequest] was rebound, with the permission granted:
    the default shortcuts are back and the CORS flag is on. *)
Lemma reset_restores_defaults_witness :
  keyboardShortcuts
    (settings (run (@resetSettings Sample.imports Sample.stringify (inr true))
                   Sample.withSendMoved))
  = Some DEFAULT_SHORTCUTS
  ∧ enableCorsForAllHosts
      (settings (run (@resetSettings Sample.imports Sample.stringify (inr true))
                     Sample.withSendMoved))
    = true.
Proof.
  pose proof (@reset_restores_defaults Sample.imports Sample.stringify (inr true)
                Sample.withSendMoved "{defaults}" true eq_refl eq_refl eq_refl eq_refl)
    as (Hsettings & _).
  split; [exact (f_equal keyboardShortcuts Hsettings)
         |exact (f_equal enableCorsForAllHosts Hsettings)].
Defined.

(** Resetting while the storage is full and holds the rebound shortcut:
    the rebound shortcut is back in the settings. *)
Lemma reset_with_failed_save_reloads_the_stored_witness :
  keyboardShortcuts
    (settings (run (@resetSettings Sample.imports Sample.storageFull (inr false))
                   Sample.sendMovedStored))
  = keyboardShortcuts Sample.sendMoved.
Proof.
  pose proof (@reset_with_failed_save_reloads_the_stored Sample.imports
                Sample.storageFull (inr false) Sample.sendMovedStored
                Sample.quotaExceeded (storedOf Sample.sendMoved) false
                eq_refl eq_refl eq_refl eq_refl) as (Hsettings & _).
  exact (f_equal keyboardShortcuts Hsettings).
Defined.

(** Two loads at start-up. *)
Lemma loadSettings_twice_witness :
  settings (run (@loadSettings Demo.imports (inr true))
                (run (@loadSettings Demo.imports (inr true)) Demo.start))
  = settings (run (@loadSettings Demo.imports (inr true)) Demo.start)
  ∧ store (run (@loadSettings Demo.imports (inr true))
               (run (@loadSettings Demo.imports (inr true)) Demo.start))
    = store (run (@loadSettings Demo.imports (inr true)) Demo.start).
Proof.
  pose proof (@loadSettings_twice Demo.imports (inr true) Demo.start Demo.start true
                eq_refl eq_refl) as (Hsettings & _ & Hstore & _).
  exact (conj Hsettings Hstore).
Defined.

(** Loading the stored rebinding at start-up: the shortcut comes from the
    storage, the flag from Chrome. *)
Lemma load_keeps_what_is_not_stored_witness :
  keyboardShortcuts
    (settings (run (@loadSettings Sample.imports (inr true)) Sample.sendMovedStored))
  = keyboardShortcuts Sample.sendMoved
  ∧ enableCorsForAllHosts
      (settings (run (@loadSettings Sample.imports (inr true)) Sample.sendMovedStored))
    = true.
Proof.
  pose proof (@load_keeps_what_is_not_stored Sample.imports (inr true)
                Sample.sendMovedStored (storedOf Sample.sendMoved) true
                eq_refl eq_refl eq_refl) as (_ & _ & _ & Hshortcuts & Hflag & _).
  exact (conj Hshortcuts Hflag).
Defined.

(** ** More on sending a request *)

Section SendRequestMore.

Context `{!Imports}.

Implicit Types (w : World) (executeRequest : Network).

(** X20: a request that does not parse is reported like a network
    failure and never reaches the network: the calls made are
    [addToHistory], [updateHistoryButtons] and [parseRequest] only, the
    badge reads [Error], the time [0ms], the response area shows the
    error, and the baseline, the current response and the size on display
    are those of the previous response. *)
Theorem parse_failure_is_reported executeRequest w (err : JsError) :
  parseRequest (rawRequestInput_innerText (elements w))
               (useHttpsCheckbox_checked (elements w)) = inl err →
  let w' := run (handleSendRequest executeRequest) w in
  calls w'
  = (calls w
     ++ [CallAddToHistory (rawRequestInput_innerText (elements w))
                          (useHttpsCheckbox_checked (elements w));
         CallUpdateHistoryButtons;
         CallParseRequest (rawRequestInput_innerText (elements w))
                          (useHttpsCheckbox_checked (elements w))])%list
  ∧ resStatus_textContent (elements w') = "Error"
  ∧ resStatus_className (elements w') = "status-badge status-5xx"
  ∧ resTime_textContent (elements w') = "0ms"
  ∧ rawResponseDisplay (elements w')
    = TextContent ("Error: " +:+ message err +:+ nl +:+ nl +:+ "Stack: " +:+ stack err)
  ∧ resSize_textContent (elements w') = resSize_textContent (elements w)
  ∧ regularRequestBaseline (state w') = regularRequestBaseline (state w)
  ∧ currentResponse (state w') = currentResponse (state w).
Proof.
  intros Hparse w'. subst w'.
  unfold run, handleSendRequest, sendAndShow, showFailure. js_unfold. cbn.
  rewrite Hparse. cbn. rewrite <- !app_assoc. by repeat split.
Qed.

(** [showResponse] writes the response area and the diff toggle only. *)
Lemma showResponse_keeps_the_badge (rawResponse : string) w :
  let w' := run (showResponse rawResponse) w in
  resStatus_textContent (elements w') = resStatus_textContent (elements w)
  ∧ resStatus_className (elements w') = resStatus_className (elements w)
  ∧ resTime_textContent (elements w') = resTime_textContent (elements w)
  ∧ resSize_textContent (elements w') = resSize_textContent (elements w).
Proof.
  unfold run, showResponse. js_unfold. cbn.
  destruct (truthy (regularRequestBaseline (state w))) eqn:Hset;
    destruct (showDiffCheckbox (elements w)) as [[|]|] eqn:Hbox;
    cbn; rewrite ?Hset, ?Hbox; cbn;
    repeat match goal with |- context [if ?c then _ else _] => destruct c; cbn end;
    by repeat split.
Qed.

Lemma handleSendRequest_badge executeRequest w parsed result :
  parseRequest (rawRequestInput_innerText (elements w))
               (useHttpsCheckbox_checked (elements w)) = inr parsed →
  executeRequest (url parsed) (options parsed) = inr result →
  ∃ w1,
    handleSendRequest executeRequest w
    = (Normal (),
       with_elements (set_rawResponseDisplay_style "block" "visible")
         (run (showResponse (buildRawResponse result)) w1))
    ∧ resStatus_textContent (elements w1)
      = pretty (status result) +:+ " " +:+ statusText result
    ∧ resStatus_className (elements w1) = statusClassName (status result) "status-badge"
    ∧ resTime_textContent (elements w1) = pretty (duration result) +:+ "ms"
    ∧ resSize_textContent (elements w1) = formatBytes (size result).
Proof.
  intros Hparse Hsent. eexists. split.
  - unfold handleSendRequest, sendAndShow. js_unfold. cbn.
    rewrite Hparse. cbn. rewrite Hsent. cbn.
    rewrite showResponse_normal. reflexivity.
  - cbn. by repeat split.
Qed.

(** X21: the badge of a response depends on that response alone. After a
    send that is answered, the status text, the time and the size are
    those of the response, and the class of the badge is decided by the
    status: a status below 200 or from 300 to 399 gets the plain badge,
    whatever class the badge had before, an error badge included. *)
Theorem badge_of_a_response executeRequest w parsed result :
  parseRequest (rawRequestInput_innerText (elements w))
               (useHttpsCheckbox_checked (elements w)) = inr parsed →
  executeRequest (url parsed) (options parsed) = inr result →
  let w' := run (handleSendRequest executeRequest) w in
  resStatus_textContent (elements w')
  = pretty (status result) +:+ " " +:+ statusText result
  ∧ resTime_textContent (elements w') = pretty (duration result) +:+ "ms"
  ∧ resSize_textContent (elements w') = formatBytes (size result)
  ∧ resStatus_className (elements w')
    = (if (200 <=? status result)%N && (status result <? 300)%N
       then "status-badge status-2xx"
       else if (400 <=? status result)%N && (status result <? 500)%N
       then "status-badge status-4xx"
       else if (500 <=? status result)%N then "status-badge status-5xx"
       else "status-badge")
  ∧ ((status result < 200)%N ∨ (300 ≤ status result < 400)%N →
     resStatus_className (elements w') = "status-badge").
Proof.
  intros Hparse Hsent w'.
  destruct (handleSendRequest_badge _ _ _ _ Hparse Hsent)
    as (w1 & Hrun & Htext & Hclass & Htime & Hsize).
  subst w'. rewrite (run_normal _ _ _ _ Hrun).
  cbn [elements with_elements set_rawResponseDisplay_style resStatus_textContent
       resStatus_className resTime_textContent resSize_textContent].
  destruct (showResponse_keeps_the_badge (buildRawResponse result) w1)
    as (-> & -> & -> & ->).
  rewrite Htext, Hclass, Htime, Hsize. unfold statusClassName.
  repeat split; try reflexivity.
  intros Hrange.
  destruct (200 <=? status result)%N eqn:H200; destruct (status result <? 300)%N eqn:H300;
    destruct (400 <=? status result)%N eqn:H400; destruct (status result <? 500)%N eqn:H500;
    destruct (500 <=? status result)%N eqn:H5xx; cbn; try reflexivity;
    rewrite ?N.leb_le, ?N.leb_gt, ?N.ltb_lt, ?N.ltb_ge in *; lia.
Qed.

(** One send, however it ends, keeps a baseline that is set and adds one
    entry to the history. *)
Lemma handleSendRequest_keeps_baseline executeRequest w :
  let w' := run (handleSendRequest executeRequest) w in
  (truthy (regularRequestBaseline (state w)) = true →
   regularRequestBaseline (state w') = regularRequestBaseline (state w))
  ∧ length (requestHistory (state w')) = S (length (requestHistory (state w))).
Proof.
  intros w'.
  destruct (parseRequest (rawRequestInput_innerText (elements w))
                         (useHttpsCheckbox_checked (elements w))) as [err|parsed] eqn:Hparse;
    [|destruct (executeRequest (url parsed) (options parsed)) as [err|result] eqn:Hsent].
  - destruct (handleSendRequest_thrown executeRequest w err) as (w1 & Hrun & Hstate & _).
    { now rewrite Hparse. }
    subst w'. rewrite (run_normal _ _ _ _ Hrun).
    unfold run, showFailure. js_unfold. cbn. rewrite Hstate. cbn.
    rewrite length_app. cbn. split; [done|lia].
  - destruct (handleSendRequest_thrown executeRequest w err) as (w1 & Hrun & Hstate & _).
    { now rewrite Hparse. }
    subst w'. rewrite (run_normal _ _ _ _ Hrun).
    unfold run, showFailure. js_unfold. cbn. rewrite Hstate. cbn.
    rewrite length_app. cbn. split; [done|lia].
  - destruct (handleSendRequest_fulfilled _ _ _ _ Hparse Hsent)
      as (w1 & Hrun & Hbase & _ & _ & Hhistory & _).
    subst w'. rewrite (run_normal _ _ _ _ Hrun). cbn [state with_elements].
    rewrite showResponse_state, Hbase.
    destruct (truthy (regularRequestBaseline (state w))); cbn;
      rewrite Hhistory, length_app; cbn; (split; [done|lia]).
Qed.

(** X22: no send replaces or clears a baseline. Once the baseline is set,
    it is the same after any number of sends, whether they are answered,
    rejected by the network or fail to parse; and every one of them adds
    its entry to the request history. *)
Theorem baseline_survives_every_send (networks : list Network) w :
  truthy (regularRequestBaseline (state w)) = true →
  regularRequestBaseline (state (sendEach networks w)) = regularRequestBaseline (state w)
  ∧ length (requestHistory (state (sendEach networks w)))
    = (length (requestHistory (state w)) + length networks)%nat.
Proof.
  unfold sendEach. revert w. induction networks as [|executeRequest rest IH]; intros w Hset.
  - cbn. split; [done|lia].
  - cbn [foldl length].
    destruct (handleSendRequest_keeps_baseline executeRequest w) as [Hkept Hgrown].
    specialize (Hkept Hset).
    destruct (IH (run (handleSendRequest executeRequest) w)) as [Hbase Hlen].
    { now rewrite Hkept. }
    rewrite Hbase, Hlen, Hkept, Hgrown. split; [done|lia].
Qed.

End SendRequestMore.

(** Sending with nothing typed: the request does not parse and no network
    call is made. *)
Lemma parse_failure_is_reported_witness :
  calls (run (@handleSendRequest Demo.imports (Demo.answering "hello")) Sample.nothingTyped)
  = [CallAddToHistory "" true; CallUpdateHistoryButtons; CallParseRequest "" true]
  ∧ resStatus_textContent
      (elements (run (@handleSendRequest Demo.imports (Demo.answering "hello"))
                     Sample.nothingTyped))
    = "Error".
Proof.
  pose proof (@parse_failure_is_reported Demo.imports (Demo.answering "hello")
                Sample.nothingTyped
                {| message := "Invalid request"; stack := "at parseRequest" |} eq_refl)
    as (Hcalls & Hstatus & _).
  exact (conj Hcalls Hstatus).
Defined.

(** A redirect after a timeout: the error class is gone from the badge. *)
Lemma badge_of_a_response_witness :
  resStatus_className (elements Sample.afterTimeout) = "status-badge status-5xx"
  ∧ resStatus_textContent
      (elements (run (@handleSendRequest Demo.imports Sample.redirecting)
                     Sample.afterTimeout))
    = "302 Found"
  ∧ resStatus_className
      (elements (run (@handleSendRequest Demo.imports Sample.redirecting)
                     Sample.afterTimeout))
    = "status-badge".
Proof.
  pose proof (@badge_of_a_response Demo.imports Sample.redirecting Sample.afterTimeout
                _ Sample.found eq_refl eq_refl) as (Htext & _ & _ & _ & Hplain).
  split; [reflexivity|]. split; [exact Htext|].
  apply Hplain. right. cbn. lia.
Defined.

(** After [hello] became the baseline: a timeout, [world] and [again]
    leave it there. *)
Lemma baseline_survives_every_send_witness :
  regularRequestBaseline
    (state (@sendEach Demo.imports
              [Demo.unreachable; Demo.answering "world"; Demo.answering "again"]
              Demo.afterHello))
  = Some (Demo.raw "hello")
  ∧ length (requestHistory
              (state (@sendEach Demo.imports
                        [Demo.unreachable; Demo.answering "world"; Demo.answering "again"]
                        Demo.afterHello)))
    = 4%nat.
Proof.
  exact (@baseline_survives_every_send Demo.imports
           [Demo.unreachable; Demo.answering "world"; Demo.answering "again"]
           Demo.afterHello eq_refl).
Defined.
